(** * The game-state normalizer of the EV page (web/app/page.tsx)

    A shallow embedding of the pure helpers [computeSecondsRemaining],
    [parseTeamsFromSlug], [parseYardlineLabel], [parseOrDefault] and of the
    submission handler [handleSubmit], followed by the properties the
    specification states about them.

    Conventions of the embedding:
    - a JavaScript number is a [jsnum]: NaN, the two infinities, or a finite
      value kept as an exact canonical rational.  Rounding to binary64,
      overflow to Infinity and the sign of zero are not modelled; where a
      property turns on rounding, the arithmetic is taken again on
      binary64 numbers ([B64]);
    - a JavaScript string is a [string] of 7-bit code units; case mapping
      and white space are the ASCII ones;
    - React state is a record; the handler reads the values captured when
      it was created and writes through the setters. *)

From Stdlib Require Import Bool Ascii String List ZArith NArith QArith Qcanon Lia Lqa.
From Stdlib Require Import DecimalString.
From Corelib Require PrimFloat.
Import ListNotations.

Local Open Scope string_scope.
Local Open Scope Z_scope.

(* ===================================================================== *)
(** ** JavaScript numbers *)

Module JS.

Inductive jsnum : Type :=
| NaN
| Inf (negative : bool)
| Fin (q : Qc).

Definition ofZ (z : Z) : jsnum := Fin (Q2Qc (inject_Z z)).

Definition isNaN (x : jsnum) : bool :=
  match x with NaN => true | _ => false end.

Definition Qc_sgn (q : Qc) : Z := Z.sgn (Qnum (this q)).

Definition neg (x : jsnum) : jsnum :=
  match x with
  | NaN => NaN
  | Inf s => Inf (negb s)
  | Fin q => Fin (- q)%Qc
  end.

Definition add (x y : jsnum) : jsnum :=
  match x, y with
  | NaN, _ | _, NaN => NaN
  | Inf s, Inf t => if Bool.eqb s t then Inf s else NaN
  | Inf s, Fin _ | Fin _, Inf s => Inf s
  | Fin a, Fin b => Fin (a + b)%Qc
  end.

Definition sub (x y : jsnum) : jsnum := add x (neg y).

(** Infinity times a finite value: NaN at zero, otherwise the sign rule. *)
Definition mul_inf (s : bool) (q : Qc) : jsnum :=
  match Qc_sgn q with
  | Z0 => NaN
  | Zpos _ => Inf s
  | Zneg _ => Inf (negb s)
  end.

Definition mul (x y : jsnum) : jsnum :=
  match x, y with
  | NaN, _ | _, NaN => NaN
  | Inf s, Inf t => Inf (xorb s t)
  | Inf s, Fin q | Fin q, Inf s => mul_inf s q
  | Fin a, Fin b => Fin (a * b)%Qc
  end.

(** [leb x y] is the comparison [x <= y]; false as soon as one side is NaN. *)
Definition leb (x y : jsnum) : bool :=
  match x, y with
  | NaN, _ | _, NaN => false
  | Inf true, _ => true
  | _, Inf false => true
  | Inf false, _ => false
  | _, Inf true => false
  | Fin a, Fin b => Qle_bool (this a) (this b)
  end.

Definition le (x y : jsnum) : Prop := leb x y = true.

(** [Math.max] and [Math.min] of two arguments: NaN if either is NaN. *)
Definition Math_max (x y : jsnum) : jsnum :=
  match x, y with
  | NaN, _ | _, NaN => NaN
  | _, _ => if leb x y then y else x
  end.

Definition Math_min (x y : jsnum) : jsnum :=
  match x, y with
  | NaN, _ | _, NaN => NaN
  | _, _ => if leb x y then x else y
  end.

(** Decidable equality, used to evaluate concrete calls. *)
Definition eqb (x y : jsnum) : bool :=
  match x, y with
  | NaN, NaN => true
  | Inf s, Inf t => Bool.eqb s t
  | Fin a, Fin b => Qeq_bool (this a) (this b)
  | _, _ => false
  end.

End JS.

Import JS.

Declare Scope js_scope.
Delimit Scope js_scope with js.
Bind Scope js_scope with jsnum.
Infix "+" := JS.add : js_scope.
Infix "-" := JS.sub : js_scope.
Infix "*" := JS.mul : js_scope.
Infix "<=" := JS.le : js_scope.
Notation "x <= y <= z" := (JS.le x y /\ JS.le y z) : js_scope.

(** Integer literals of the source. *)
Definition num (z : Z) : jsnum := JS.ofZ z.

(* ===================================================================== *)
(** ** JavaScript strings (ASCII) *)

Definition code (c : ascii) : N := N_of_ascii c.

(** White space of [String.prototype.trim], of [\s] and of the numeric
    conversion, restricted to ASCII: TAB, LF, VT, FF, CR and SPACE (the
    platform also counts U+00A0, U+FEFF and the other Unicode spaces). *)
Definition isSpace (c : ascii) : bool :=
  (((9 <=? code c) && (code c <=? 13)) || (code c =? 32))%N.

Definition upperChar (c : ascii) : ascii :=
  if ((97 <=? code c) && (code c <=? 122))%N then ascii_of_N (code c - 32) else c.

Definition lowerChar (c : ascii) : ascii :=
  if ((65 <=? code c) && (code c <=? 90))%N then ascii_of_N (code c + 32) else c.

Fixpoint mapString (f : ascii -> ascii) (s : string) : string :=
  match s with
  | EmptyString => EmptyString
  | String c r => String (f c) (mapString f r)
  end.

(** Case mapping, of ASCII letters only: where a statement turns on the
    mapping of other characters it is made for ASCII strings. *)
Definition toUpperCase : string -> string := mapString upperChar.
Definition toLowerCase : string -> string := mapString lowerChar.

Fixpoint trimStart (s : string) : string :=
  match s with
  | String c r => if isSpace c then trimStart r else s
  | EmptyString => EmptyString
  end.

(** [trimEnd] keeps a character when it is not white space or when
    something that is kept follows it. *)
Fixpoint trimEnd (s : string) : string :=
  match s with
  | EmptyString => EmptyString
  | String c r =>
      match trimEnd r with
      | EmptyString => if isSpace c then EmptyString else String c EmptyString
      | r' => String c r'
      end
  end.

Definition trim (s : string) : string := trimEnd (trimStart s).

(** [s.split(sep)] for a one-character separator: never the empty list. *)
Fixpoint split (sep : ascii) (s : string) : list string :=
  match s with
  | EmptyString => [EmptyString]
  | String c r =>
      if Ascii.eqb c sep then EmptyString :: split sep r
      else match split sep r with
           | p :: ps => String c p :: ps
           | [] => [String c EmptyString]
           end
  end.

(** [s.split(/\s+/)]: the separators are the maximal runs of white space.
    [inRun] tells that the previous character was white space, so that the
    run it belongs to has already closed a part. *)
Fixpoint splitSpacesFrom (inRun : bool) (s : string) : list string :=
  match s with
  | EmptyString => [EmptyString]
  | String c r =>
      if isSpace c then
        if inRun then splitSpacesFrom true r
        else EmptyString :: splitSpacesFrom true r
      else match splitSpacesFrom false r with
           | p :: ps => String c p :: ps
           | [] => [String c EmptyString]
           end
  end.

Definition splitSpaces (s : string) : list string := splitSpacesFrom false s.

(** Truthiness of a string: only the empty string is falsy. *)
Definition truthy (s : string) : bool :=
  match s with EmptyString => false | _ => true end.

(** [a || b] on strings. *)
Definition orElse (a b : string) : string := if truthy a then a else b.

(* ===================================================================== *)
(** ** [Number(string)]: the numeric conversion of a string *)

Definition digitVal (base : N) (c : ascii) : option N :=
  let n := code c in
  let v := if ((48 <=? n) && (n <=? 57))%N then Some (n - 48)%N
           else if ((97 <=? n) && (n <=? 102))%N then Some (n - 87)%N
           else if ((65 <=? n) && (n <=? 70))%N then Some (n - 55)%N
           else None in
  match v with
  | Some d => if (d <? base)%N then Some d else None
  | None => None
  end.

(** Reads the longest prefix of digits of [base]: the value accumulated
    on top of [acc], the number of digits read, and what is left. *)
Fixpoint spanDigits (base : N) (s : string) (acc : N) (cnt : nat)
  : N * nat * string :=
  match s with
  | String c r =>
      match digitVal base c with
      | Some d => spanDigits base r (acc * base + d)%N (S cnt)
      | None => (acc, cnt, s)
      end
  | EmptyString => (acc, cnt, s)
  end.

Definition radixOf (c : ascii) : option N :=
  match c with
  | "x"%char | "X"%char => Some 16%N
  | "o"%char | "O"%char => Some 8%N
  | "b"%char | "B"%char => Some 2%N
  | _ => None
  end.

(** [0x..], [0o..], [0b..]: unsigned, at least one digit, nothing after. *)
Definition parseNonDecimal (s : string) : option jsnum :=
  match s with
  | String "0"%char (String p r) =>
      match radixOf p with
      | Some b =>
          match spanDigits b r 0%N O with
          | (v, S _, EmptyString) => Some (num (Z.of_N v))
          | _ => None
          end
      | None => None
      end
  | _ => None
  end.

(** The finite value [m * 10^e]. *)
Definition scaled (m : N) (e : Z) : jsnum :=
  Fin (Q2Qc (inject_Z (Z.of_N m) * Qpower 10 e)).

Definition isExponentIndicator (c : ascii) : bool :=
  match c with "e"%char | "E"%char => true | _ => false end.

(** What follows the exponent indicator: an optional sign and digits. *)
Definition parseExponent (s : string) : option Z :=
  let '(sgn, r) := match s with
                   | String "+"%char r => (1, r)
                   | String "-"%char r => (-1, r)
                   | _ => (1, s)
                   end in
  match spanDigits 10%N r 0%N O with
  | (v, S _, EmptyString) => Some (sgn * Z.of_N v)
  | _ => None
  end.

(** [Infinity], or digits with an optional fraction and exponent; at least
    one digit before or after the point. *)
Definition parseUnsignedDecimal (s : string) : option jsnum :=
  if String.eqb s "Infinity" then Some (Inf false) else
  let '(ip, ni, r1) := spanDigits 10%N s 0%N O in
  let '(m, nf, r2) := match r1 with
                      | String "."%char r => spanDigits 10%N r ip O
                      | _ => (ip, O, r1)
                      end in
  match (ni + nf)%nat with
  | O => None
  | _ =>
      match r2 with
      | EmptyString => Some (scaled m (- Z.of_nat nf))
      | String c r3 =>
          if isExponentIndicator c
          then option_map (fun e => scaled m (e - Z.of_nat nf)) (parseExponent r3)
          else None
      end
  end.

Definition parseDecimal (s : string) : option jsnum :=
  match s with
  | String "+"%char r => parseUnsignedDecimal r
  | String "-"%char r => option_map JS.neg (parseUnsignedDecimal r)
  | _ => parseUnsignedDecimal s
  end.

(** [Number(s)]: white space is stripped, the empty string is 0, a string
    that is no numeric literal is NaN.  The value is the exact decimal
    value of the literal, neither rounded to binary64 nor taken to
    Infinity or 0 when it is out of range. *)
Definition Number (s : string) : jsnum :=
  match trim s with
  | EmptyString => num 0
  | t =>
      match parseNonDecimal t with
      | Some n => n
      | None =>
          match parseDecimal t with
          | Some n => n
          | None => NaN
          end
      end
  end.

(* ===================================================================== *)
(** ** The pure helpers of page.tsx *)

(** [computeSecondsRemaining(quarter, clock)].  The list pattern [[p0; p1]]
    is the test [parts.length !== 2] together with [parts[0]], [parts[1]]. *)
Definition computeSecondsRemaining (quarter : jsnum) (clock : string) : jsnum :=
  let parts := split ":" clock in
  match parts with
  | [p0; p1] =>
      let mm := Number p0 in
      let ss := Number p1 in
      if JS.isNaN mm || JS.isNaN ss then num 0 else
      let remainingThisQuarter := (mm * num 60 + ss)%js in
      let remainingFullQuarters :=
        (JS.Math_max (num 0) (num 4 - quarter) * num 15 * num 60)%js in
      (remainingThisQuarter + remainingFullQuarters)%js
  | _ => num 0
  end.

(** [findIndex]: the first position whose element satisfies [p]. *)
Fixpoint findIndex {A} (p : A -> bool) (l : list A) : option nat :=
  match l with
  | [] => None
  | x :: r => if p x then Some O else option_map S (findIndex p r)
  end.

(** [parts[i]?.toUpperCase() ?? dflt]: an index out of range is undefined. *)
Definition upperAt (parts : list string) (i : nat) (dflt : string) : string :=
  match nth_error parts i with
  | Some p => toUpperCase p
  | None => dflt
  end.

(** [parseTeamsFromSlug(slug)], the pair [(team1, team2)]. *)
Definition parseTeamsFromSlug (slug : string) : string * string :=
  let parts := split "-" slug in
  let team1 := "TEAM1" in
  let team2 := "TEAM2" in
  let nflIdx := findIndex (fun p => String.eqb (toLowerCase p) "nfl") parts in
  match nflIdx with
  | Some i =>
      if (i + 3 <=? List.length parts)%nat
      then (upperAt parts (i + 1) team1, upperAt parts (i + 2) team2)
      else if (3 <=? List.length parts)%nat
      then (upperAt parts 1 team1, upperAt parts 2 team2)
      else (team1, team2)
  | None =>
      if (3 <=? List.length parts)%nat
      then (upperAt parts 1 team1, upperAt parts 2 team2)
      else (team1, team2)
  end.

(** [Math.min(100, Math.max(0, y))]. *)
Definition clamp100 (y : jsnum) : jsnum :=
  JS.Math_min (num 100) (JS.Math_max (num 0) y).

(** [parseYardlineLabel(label, homeTeam, awayTeam)]; [None] is [null]. *)
Definition parseYardlineLabel (label homeTeam awayTeam : string) : option jsnum :=
  let trimmed := trim label in
  if negb (truthy trimmed) then None else
  match splitSpaces trimmed with
  | [p0; p1] =>
      let team := toUpperCase p0 in
      let y := Number p1 in
      if JS.isNaN y then None else
      if String.eqb team (toUpperCase homeTeam) then Some (clamp100 y)
      else if String.eqb team (toUpperCase awayTeam) then Some (clamp100 (num 100 - y)%js)
      else None
  | _ => None
  end.

(* ===================================================================== *)
(** ** The page: form state, request payload, network *)

Inductive Side : Type := home_yes | home_no.

Definition sideTag (s : Side) : string :=
  match s with home_yes => "home_yes" | home_no => "home_no" end.

Record EVResponse : Type := {
  p_model : jsnum;
  fair_price : jsnum;
  market_price : jsnum;
  fee_cost : jsnum;
  edge_raw : jsnum;
  edge_after_fees : jsnum;
  ev_per_contract : jsnum
}.

(** A numeric input of the form: a number, or the empty string of a
    cleared input. *)
Inductive field : Type :=
| Blank
| Val (n : jsnum).

(** The values the user edits, with the team codes derived from the slug
    ([team1], [team2]) and the home/away choice made from them. *)
Record Fields : Type := {
  slug : string;
  side : Side;
  quarter : field;
  clock : string;
  homeScore : field;
  awayScore : field;
  homeHasBall : bool;
  yardlineLabel : string;
  down : field;
  ydstogo : field;
  feeCost : field;
  team1 : string;
  team2 : string;
  homeTeam : string;
  awayTeam : string
}.

(** What the page displays about a submission; [None] is [null]. *)
Record Status : Type := {
  loading : bool;
  error : option string;
  result : option EVResponse;
  yardlineError : option string
}.

Record Page : Type := { fields : Fields; status : Status }.

(** The values an object literal can hold in the request payload. *)
#[warnings="-register-all"]
Inductive jsval : Type :=
| VNum (n : jsnum)
| VBool (b : bool)
| VStr (s : string)
| VObj (props : list (string * jsval)).

(** Property access [o.k] and the path [o.k1.k2]. *)
Fixpoint assoc (k : string) (props : list (string * jsval)) : option jsval :=
  match props with
  | [] => None
  | (k', v) :: r => if String.eqb k k' then Some v else assoc k r
  end.

Definition prop (k : string) (o : jsval) : option jsval :=
  match o with VObj props => assoc k props | _ => None end.

Definition prop2 (k1 k2 : string) (o : jsval) : option jsval :=
  match prop k1 o with Some o' => prop k2 o' | None => None end.

(** All the string values found in a payload, nested objects included. *)
Fixpoint stringsOf (v : jsval) : list string :=
  match v with
  | VStr s => [s]
  | VObj props =>
      (fix go (l : list (string * jsval)) : list string :=
         match l with
         | [] => []
         | (_, x) :: r => (stringsOf x ++ go r)%list
         end) props
  | _ => []
  end.

Definition isBoolean (v : jsval) : bool :=
  match v with VBool _ => true | _ => false end.

(** An HTTP response.  [json] is what [res.json()] gives: the data read,
    taken to be an EV data object, or the message of the error it rejects
    with.  A body that reads as null or as another falsy value is outside
    this type. *)
Record Response : Type := {
  httpStatus : N;
  statusText : string;
  body : string;
  json : string + EVResponse
}.

(** [res.ok]: the status is in the range 200-299. *)
Definition ok (r : Response) : bool :=
  ((200 <=? httpStatus r) && (httpStatus r <=? 299))%N.

(** [fetch] either rejects (no response at all) or resolves. *)
Inductive FetchOutcome : Type :=
| Rejected (message : string)
| Resolved (r : Response).

(** The backend and the network, seen from the page: what comes back for
    a URL and a request body. *)
Definition Network : Type := string -> jsval -> FetchOutcome.

Record Request : Type := { url : string; payload : jsval }.

(* ===================================================================== *)
(** ** Effects of the handler *)

(** The handler writes the status through the setters, issues requests and
    logs to the console; an exception is the message of the thrown Error. *)
Record World : Type := {
  ui : Status;
  sent : list Request;
  console : list string
}.

Definition Act (A : Type) : Type := World -> (string + A) * World.

Definition ret {A} (a : A) : Act A := fun w => (inr a, w).

Definition bind {A B} (m : Act A) (k : A -> Act B) : Act B :=
  fun w => match m w with
           | (inl e, w') => (inl e, w')
           | (inr a, w') => k a w'
           end.

Definition throw {A} (message : string) : Act A := fun w => (inl message, w).

Notation "x <- m ;; k" := (bind m (fun x => k))
  (at level 61, m at next level, right associativity).
Notation "m ;; k" := (bind m (fun _ => k))
  (at level 61, right associativity).

(** [try { body } catch (err) { handler } finally { final }]. *)
Definition tryCatchFinally {A} (body : Act A) (handler : string -> Act A)
    (final : Act unit) : Act A :=
  fun w =>
    let '(r1, w1) := body w in
    let '(r2, w2) := match r1 with
                     | inl e => handler e w1
                     | inr a => (inr a, w1)
                     end in
    match final w2 with
    | (inl e, w3) => (inl e, w3)
    | (inr _, w3) => (r2, w3)
    end.

Definition modifyStatus (f : Status -> Status) : Act unit :=
  fun w => (inr tt, {| ui := f (ui w); sent := sent w; console := console w |}).

Definition setLoading (b : bool) : Act unit :=
  modifyStatus (fun s => {| loading := b; error := error s;
                            result := result s; yardlineError := yardlineError s |}).

Definition setError (e : option string) : Act unit :=
  modifyStatus (fun s => {| loading := loading s; error := e;
                            result := result s; yardlineError := yardlineError s |}).

Definition setResult (r : option EVResponse) : Act unit :=
  modifyStatus (fun s => {| loading := loading s; error := error s;
                            result := r; yardlineError := yardlineError s |}).

Definition setYardlineError (e : option string) : Act unit :=
  modifyStatus (fun s => {| loading := loading s; error := error s;
                            result := result s; yardlineError := e |}).

Definition console_error (message : string) : Act unit :=
  fun w => (inr tt, {| ui := ui w; sent := sent w;
                       console := (console w ++ [message])%list |}).

(** [await fetch(url, { method: "POST", body: JSON.stringify(payload) })]:
    the request leaves, then the call resolves or rejects. *)
Definition fetch (net : Network) (u : string) (p : jsval) : Act Response :=
  fun w =>
    let w' := {| ui := ui w; sent := (sent w ++ [{| url := u; payload := p |}])%list;
                 console := console w |} in
    match net u p with
    | Rejected message => (inl message, w')
    | Resolved r => (inr r, w')
    end.

Definition res_text (r : Response) : Act string := ret (body r).

Definition res_json (r : Response) : Act EVResponse :=
  match json r with
  | inl message => throw message
  | inr data => ret data
  end.

(** [`${n}`] for a status code. *)
Definition showStatus (n : N) : string := NilEmpty.string_of_uint (N.to_uint n).

Definition dquote : string := String (ascii_of_nat 34) EmptyString.

(** [!s] for [s : string | null]. *)
Definition falsy (s : option string) : bool :=
  match s with
  | None => true
  | Some t => negb (truthy t)
  end.

(* ===================================================================== *)
(** ** [parseOrDefault] and [handleSubmit] *)

(** [typeof value === "number" && !Number.isNaN(value) ? value : fallback]. *)
Definition parseOrDefault (value : field) (fallback : jsnum) : jsnum :=
  match value with
  | Val n => if negb (JS.isNaN n) then n else fallback
  | Blank => fallback
  end.

Definition yardlineMessage (home away : string) : string :=
  "Yardline must look like " ++ dquote ++ home ++ " 36" ++ dquote ++ " or "
    ++ dquote ++ away ++ " 12" ++ dquote
    ++ " and use one of the two team codes.".

Definition endpoint : string := "http://127.0.0.1:8000/ev/game".

(** [handleSubmit], in the closure of the render [p]: every state variable
    it reads has the value of that render, also after a setter was called. *)
Definition handleSubmit (p : Page) (net : Network) : Act unit :=
  let f := fields p in
  setError None ;;
  setResult None ;;
  setYardlineError None ;;
  setLoading true ;;
  tryCatchFinally
    (let q := JS.Math_min (num 4) (JS.Math_max (num 1) (parseOrDefault (quarter f) (num 1))) in
     let hs := parseOrDefault (homeScore f) (num 0) in
     let as' := parseOrDefault (awayScore f) (num 0) in
     let d := JS.Math_min (num 4) (JS.Math_max (num 1) (parseOrDefault (down f) (num 1))) in
     let ytg := JS.Math_max (num 1) (parseOrDefault (ydstogo f) (num 10)) in
     let fee := JS.Math_max (num 0) (parseOrDefault (feeCost f) (num 0)) in
     let seconds_remaining := computeSecondsRemaining q (clock f) in
     let score_diff_home := (hs - as')%js in
     ylParsed <- match parseYardlineLabel (yardlineLabel f) (homeTeam f) (awayTeam f) with
                 | None =>
                     setYardlineError (Some (yardlineMessage (homeTeam f) (awayTeam f))) ;;
                     throw "Invalid yardline format"
                 | Some y => ret y
                 end ;;
     let payload :=
       VObj [ ("slug", VStr (slug f));
              ("side", VStr (sideTag (side f)));
              ("fee_cost", VNum fee);
              ("state", VObj [ ("quarter", VNum q);
                               ("seconds_remaining", VNum seconds_remaining);
                               ("home_score", VNum hs);
                               ("away_score", VNum as');
                               ("score_diff_home", VNum score_diff_home);
                               ("home_has_ball", VNum (if homeHasBall f then num 1 else num 0));
                               ("yardline_100", VNum ylParsed);
                               ("down", VNum d);
                               ("ydstogo", VNum ytg) ]) ] in
     res <- fetch net endpoint payload ;;
     (if negb (ok res)
      then text <- res_text res ;;
           throw ("Backend error " ++ showStatus (httpStatus res) ++ ": "
                    ++ orElse text (statusText res))
      else ret tt) ;;
     data <- res_json res ;;
     setResult (Some data))
    (fun err =>
       console_error err ;;
       if falsy (yardlineError (status p))
       then setError (Some (orElse err "Unknown error"))
       else ret tt)
    (setLoading false).

(** One submission of the page [p] against the network [net]. *)
Definition submit (p : Page) (net : Network) : World :=
  snd (handleSubmit p net {| ui := status p; sent := []; console := [] |}).

(** The requests a submission issues and the status shown after it. *)
Definition requests (p : Page) (net : Network) : list Request := sent (submit p net).
Definition shown (p : Page) (net : Network) : Status := ui (submit p net).

(** The page as first rendered, and the effect that runs on mount and
    whenever the slug changes. *)
Definition initialFields : Fields := {|
  slug := "nfl-buf-hou-2025-11-20";
  side := home_yes;
  quarter := Val (num 1);
  clock := "15:00";
  homeScore := Val (num 0);
  awayScore := Val (num 0);
  homeHasBall := true;
  yardlineLabel := "HOU 25";
  down := Val (num 1);
  ydstogo := Val (num 10);
  feeCost := Val (Fin (Q2Qc (1 # 100)));
  team1 := "TEAM1";
  team2 := "TEAM2";
  homeTeam := "TEAM1";
  awayTeam := "TEAM2"
|}.

Definition initialStatus : Status :=
  {| loading := false; error := None; result := None; yardlineError := None |}.

Definition slugEffect (f : Fields) : Fields :=
  let parsed := parseTeamsFromSlug (slug f) in {|
  slug := slug f;
  side := side f;
  quarter := quarter f;
  clock := clock f;
  homeScore := homeScore f;
  awayScore := awayScore f;
  homeHasBall := homeHasBall f;
  yardlineLabel := fst parsed ++ " 25";
  down := down f;
  ydstogo := ydstogo f;
  feeCost := feeCost f;
  team1 := fst parsed;
  team2 := snd parsed;
  homeTeam := fst parsed;
  awayTeam := snd parsed
|}.

Definition mountedPage : Page :=
  {| fields := slugEffect initialFields; status := initialStatus |}.

(* ===================================================================== *)
(** ** Vocabulary of the specification *)

(** A part is numeric when it is a numeric literal: it is not blank and
    the numeric conversion accepts it. *)
Definition isNumeric (s : string) : Prop :=
  trim s <> EmptyString /\ Number s <> NaN.

(** The conversion alone also accepts a blank part, which it reads as 0. *)
Definition converts (s : string) : Prop := Number s <> NaN.

(** "Exactly two colon-separated numeric parts". *)
Definition twoNumericParts (clock : string) : Prop :=
  exists a b, split ":" clock = [a; b] /\ isNumeric a /\ isNumeric b.

(** Exactly two colon-separated parts that the conversion accepts. *)
Definition twoConvertibleParts (clock : string) : Prop :=
  exists a b, split ":" clock = [a; b] /\ converts a /\ converts b.

(** The formula of the specification for minutes [m], seconds [s] and
    quarter [q]: (m x 60 + s) + max(0, 4 - q) x 900. *)
Definition secondsFormula (q m s : jsnum) : jsnum :=
  ((m * num 60 + s) + JS.Math_max (num 0) (num 4 - q) * num 900)%js.

(** The label consists of exactly a team part [t] and a numeric part of
    value [y]. *)
Definition LabelOf (label t : string) (y : jsnum) : Prop :=
  exists n, splitSpaces (trim label) = [t; n] /\ Number n = y /\ y <> NaN.

(** Two team codes match when they agree up to case. *)
Definition sameCode (a b : string) : Prop := toUpperCase a = toUpperCase b.

(** The three rules of the yardline-label conversion. *)
Definition homeRule (label home away : string) : Prop :=
  forall t y, LabelOf label t y -> sameCode t home ->
    parseYardlineLabel label home away = Some (clamp100 y).

Definition failureRule (label home away : string) : Prop :=
  (forall t y, LabelOf label t y -> ~ sameCode t home -> ~ sameCode t away ->
     parseYardlineLabel label home away = None)
  /\ ((~ exists t y, LabelOf label t y) ->
      parseYardlineLabel label home away = None).

(** The away rule, for a team part that is not the home code. *)
Definition awayRuleAfterHome (label home away : string) : Prop :=
  forall t y, LabelOf label t y -> ~ sameCode t home -> sameCode t away ->
    parseYardlineLabel label home away = Some (clamp100 (num 100 - y)%js).

(** A token of the slug that is "nfl" up to case. *)
Definition isNflToken (p : string) : bool := String.eqb (toLowerCase p) "nfl".

(** Position [i] of [parts] holds an "nfl" token. *)
Definition nflAt (parts : list string) (i : nat) : Prop :=
  exists p, nth_error parts i = Some p /\ isNflToken p = true.

(** The derived pair is made of the uppercased tokens at [i] and [j]. *)
Definition teamsAt (slug : string) (i j : nat) : Prop :=
  exists a b, nth_error (split "-" slug) i = Some a
              /\ nth_error (split "-" slug) j = Some b
              /\ parseTeamsFromSlug slug = (toUpperCase a, toUpperCase b).

(** The derivation rule as the specification words it: the two tokens
    after an "nfl" token when there is one, else the tokens 1 and 2. *)
Definition derivationRule (slug : string) : Prop :=
  ((exists i, nflAt (split "-" slug) i) ->
     exists i, nflAt (split "-" slug) i /\ teamsAt slug (i + 1) (i + 2))
  /\ ((~ exists i, nflAt (split "-" slug) i) -> teamsAt slug 1 2).

(** The fields with other codes in the four places that hold the derived
    codes: the pair itself and the home and away codes taken from it. *)
Definition withCodes (f : Fields) (t1 t2 h a : string) : Fields := {|
  slug := slug f;
  side := side f;
  quarter := quarter f;
  clock := clock f;
  homeScore := homeScore f;
  awayScore := awayScore f;
  homeHasBall := homeHasBall f;
  yardlineLabel := yardlineLabel f;
  down := down f;
  ydstogo := ydstogo f;
  feeCost := feeCost f;
  team1 := t1;
  team2 := t2;
  homeTeam := h;
  awayTeam := a
|}.

(** "The derived codes are used only for display labels": with other
    codes and everything else the same, a submission issues the same
    requests. *)
Definition codesOnlyDisplayed : Prop :=
  forall f t1 t2 h a st net,
    requests {| fields := withCodes f t1 t2 h a; status := st |} net
    = requests {| fields := f; status := st |} net.


(** The yardline of the form, read against the chosen home and away. *)
Definition yardlineOf (f : Fields) : option jsnum :=
  parseYardlineLabel (yardlineLabel f) (homeTeam f) (awayTeam f).

(** The normalized numeric inputs, as [handleSubmit] computes them. *)
Definition quarterOf (f : Fields) : jsnum :=
  JS.Math_min (num 4) (JS.Math_max (num 1) (parseOrDefault (quarter f) (num 1))).
Definition downOf (f : Fields) : jsnum :=
  JS.Math_min (num 4) (JS.Math_max (num 1) (parseOrDefault (down f) (num 1))).
Definition ydstogoOf (f : Fields) : jsnum :=
  JS.Math_max (num 1) (parseOrDefault (ydstogo f) (num 10)).
Definition feeOf (f : Fields) : jsnum :=
  JS.Math_max (num 0) (parseOrDefault (feeCost f) (num 0)).

(** The request body [handleSubmit] builds once the yardline is read. *)
Definition payloadFor (f : Fields) (yl : jsnum) : jsval :=
  let hs := parseOrDefault (homeScore f) (num 0) in
  let as' := parseOrDefault (awayScore f) (num 0) in
  VObj [ ("slug", VStr (slug f));
         ("side", VStr (sideTag (side f)));
         ("fee_cost", VNum (feeOf f));
         ("state", VObj [ ("quarter", VNum (quarterOf f));
                          ("seconds_remaining",
                           VNum (computeSecondsRemaining (quarterOf f) (clock f)));
                          ("home_score", VNum hs);
                          ("away_score", VNum as');
                          ("score_diff_home", VNum (hs - as')%js);
                          ("home_has_ball",
                           VNum (if homeHasBall f then num 1 else num 0));
                          ("yardline_100", VNum yl);
                          ("down", VNum (downOf f));
                          ("ydstogo", VNum (ydstogoOf f)) ]) ].

(** The properties of the state object of the payload. *)
Definition stateProps (f : Fields) (yl : jsnum) : list (string * jsval) :=
  let hs := parseOrDefault (homeScore f) (num 0) in
  let as' := parseOrDefault (awayScore f) (num 0) in
  [ ("quarter", VNum (quarterOf f));
    ("seconds_remaining", VNum (computeSecondsRemaining (quarterOf f) (clock f)));
    ("home_score", VNum hs);
    ("away_score", VNum as');
    ("score_diff_home", VNum (hs - as')%js);
    ("home_has_ball", VNum (if homeHasBall f then num 1 else num 0));
    ("yardline_100", VNum yl);
    ("down", VNum (downOf f));
    ("ydstogo", VNum (ydstogoOf f)) ].

(** The time left in the current quarter that a clock string is read as:
    minutes x 60 + seconds, and 0 for a string that is not read. *)
Definition clockSeconds (clock : string) : jsnum :=
  match split ":" clock with
  | [a; b] =>
      if JS.isNaN (Number a) || JS.isNaN (Number b) then num 0
      else (Number a * num 60 + Number b)%js
  | _ => num 0
  end.

(** Editing the clock and the yardline inputs ([onChange]). *)
Definition setClock (v : string) (f : Fields) : Fields := {|
  slug := slug f;
  side := side f;
  quarter := quarter f;
  clock := v;
  homeScore := homeScore f;
  awayScore := awayScore f;
  homeHasBall := homeHasBall f;
  yardlineLabel := yardlineLabel f;
  down := down f;
  ydstogo := ydstogo f;
  feeCost := feeCost f;
  team1 := team1 f;
  team2 := team2 f;
  homeTeam := homeTeam f;
  awayTeam := awayTeam f
|}.

Definition setYardlineLabel (v : string) (f : Fields) : Fields := {|
  slug := slug f;
  side := side f;
  quarter := quarter f;
  clock := clock f;
  homeScore := homeScore f;
  awayScore := awayScore f;
  homeHasBall := homeHasBall f;
  yardlineLabel := v;
  down := down f;
  ydstogo := ydstogo f;
  feeCost := feeCost f;
  team1 := team1 f;
  team2 := team2 f;
  homeTeam := homeTeam f;
  awayTeam := awayTeam f
|}.

(** Two networks: one where the request fails to leave, one where the
    backend answers every request with [r]. *)
Definition offline : Network := fun _ _ => Rejected "Failed to fetch".
Definition backend (r : Response) : Network := fun _ _ => Resolved r.

Definition serverError : Response :=
  {| httpStatus := 500%N; statusText := "Internal Server Error";
     body := "boom"; json := inl "Unexpected token" |}.

(** "The displayed page-level error is exactly the body text, or the
    status text when the body is empty". *)
Definition surfacedVerbatim (p : Page) (net : Network) (res : Response) : Prop :=
  error (shown p net) = Some (orElse (body res) (statusText res)).

(** "The field state.home_has_ball of every submitted payload is a
    boolean". *)
Definition sendsBooleanPossession (p : Page) (net : Network) : Prop :=
  forall r, In r (requests p net) ->
    exists v, prop2 "state" "home_has_ball" (payload r) = Some v
              /\ isBoolean v = true.

(* ===================================================================== *)
(** ** The other handlers of the page *)

(** The [onChange] handler that the numeric inputs share: a cleared input
    empties the field, a text the conversion rejects is ignored. *)
Definition onNumberChange (v : string) (old : field) : field :=
  if String.eqb v EmptyString then Blank
  else let n := Number v in
       if negb (JS.isNaN n) then Val n else old.

(** A field after the successive texts of its input. *)
Definition afterEdits (edits : list string) (init : field) : field :=
  fold_left (fun fld v => onNumberChange v fld) edits init.

(** [setSlug] of the slug input. *)
Definition setSlug (v : string) (f : Fields) : Fields := {|
  slug := v;
  side := side f;
  quarter := quarter f;
  clock := clock f;
  homeScore := homeScore f;
  awayScore := awayScore f;
  homeHasBall := homeHasBall f;
  yardlineLabel := yardlineLabel f;
  down := down f;
  ydstogo := ydstogo f;
  feeCost := feeCost f;
  team1 := team1 f;
  team2 := team2 f;
  homeTeam := homeTeam f;
  awayTeam := awayTeam f
|}.

(** The two buttons of "Who is actually home?". *)
Definition chooseTeam1Home (f : Fields) : Fields := {|
  slug := slug f;
  side := side f;
  quarter := quarter f;
  clock := clock f;
  homeScore := homeScore f;
  awayScore := awayScore f;
  homeHasBall := homeHasBall f;
  yardlineLabel := team1 f ++ " 25";
  down := down f;
  ydstogo := ydstogo f;
  feeCost := feeCost f;
  team1 := team1 f;
  team2 := team2 f;
  homeTeam := team1 f;
  awayTeam := team2 f
|}.

Definition chooseTeam2Home (f : Fields) : Fields := {|
  slug := slug f;
  side := side f;
  quarter := quarter f;
  clock := clock f;
  homeScore := homeScore f;
  awayScore := awayScore f;
  homeHasBall := homeHasBall f;
  yardlineLabel := team2 f ++ " 25";
  down := down f;
  ydstogo := ydstogo f;
  feeCost := feeCost f;
  team1 := team1 f;
  team2 := team2 f;
  homeTeam := team2 f;
  awayTeam := team1 f
|}.

(** Some character of [s] satisfies [p]. *)
Fixpoint anyChar (p : ascii -> bool) (s : string) : bool :=
  match s with
  | EmptyString => false
  | String c r => p c || anyChar p r
  end.

(** A team code the default label can carry: not empty, no white space. *)
Definition plainCode (s : string) : Prop :=
  s <> EmptyString /\ anyChar isSpace s = false.

Definition isHyphen (c : ascii) : bool := Ascii.eqb c "-".

(** A backend that answers 200 with the data [d]. *)
Definition okResponse (d : EVResponse) : Response :=
  {| httpStatus := 200%N; statusText := "OK";
     body := "{...}"; json := inr d |}.

Definition sampleEV : EVResponse := {|
  p_model := Fin (Q2Qc (62 # 100));
  fair_price := Fin (Q2Qc (62 # 100));
  market_price := Fin (Q2Qc (55 # 100));
  fee_cost := Fin (Q2Qc (1 # 100));
  edge_raw := Fin (Q2Qc (7 # 100));
  edge_after_fees := Fin (Q2Qc (6 # 100));
  ev_per_contract := Fin (Q2Qc (6 # 100))
|}.

(** A page on which the field error of an earlier attempt is displayed. *)
Definition afterFieldError (f : Fields) : Page :=
  {| fields := f;
     status := {| loading := false; error := None; result := None;
                  yardlineError := Some (yardlineMessage (homeTeam f) (awayTeam f)) |} |}.

(** The five ways a submission can go. *)
Inductive Outcome (p : Page) (net : Network) : Prop :=
| Unreadable :
    yardlineOf (fields p) = None -> Outcome p net
| NoAnswer (yl : jsnum) (m : string) :
    yardlineOf (fields p) = Some yl ->
    net endpoint (payloadFor (fields p) yl) = Rejected m -> Outcome p net
| Refused (yl : jsnum) (res : Response) :
    yardlineOf (fields p) = Some yl ->
    net endpoint (payloadFor (fields p) yl) = Resolved res ->
    ok res = false -> Outcome p net
| Garbled (yl : jsnum) (res : Response) (m : string) :
    yardlineOf (fields p) = Some yl ->
    net endpoint (payloadFor (fields p) yl) = Resolved res ->
    ok res = true -> json res = inl m -> Outcome p net
| Answered (yl : jsnum) (res : Response) (d : EVResponse) :
    yardlineOf (fields p) = Some yl ->
    net endpoint (payloadFor (fields p) yl) = Resolved res ->
    ok res = true -> json res = inr d -> Outcome p net.

(* ===================================================================== *)
(** ** The earlier page: numbers in the state, no yardline label *)

(** Truthiness of a number: 0 and NaN are falsy. *)
Definition isZero (n : jsnum) : bool :=
  match n with
  | Fin q => Qeq_bool (this q) 0
  | _ => false
  end.

(** [n || d] on numbers. *)
Definition numOr (n d : jsnum) : jsnum :=
  if negb (JS.isNaN n || isZero n) then n else d.

Module Legacy.

(** The [onChange] of its numeric inputs: [setX(Number(e.target.value) || d)]. *)
Definition onNumberChange (v : string) (d : jsnum) : jsnum := numOr (Number v) d.

Record Fields : Type := {
  slug : string;
  side : Side;
  quarter : jsnum;
  clock : string;
  homeScore : jsnum;
  awayScore : jsnum;
  homeHasBall : bool;
  yardline100 : jsnum;
  down : jsnum;
  ydstogo : jsnum;
  feeCost : jsnum
}.

(** The status of this page has no yardline error: that component is
    neither read nor written. *)
Record Page : Type := { fields : Fields; status : Status }.

Definition initialFields : Fields := {|
  slug := "nfl-buf-hou-2025-11-20";
  side := home_yes;
  quarter := num 1;
  clock := "15:00";
  homeScore := num 0;
  awayScore := num 0;
  homeHasBall := true;
  yardline100 := num 25;
  down := num 1;
  ydstogo := num 10;
  feeCost := Fin (Q2Qc (1 # 100))
|}.

Definition initialPage : Page :=
  {| fields := initialFields; status := initialStatus |}.

Definition handleSubmit (p : Page) (net : Network) : Act unit :=
  let f := fields p in
  setError None ;;
  setResult None ;;
  setLoading true ;;
  tryCatchFinally
    (let seconds_remaining := computeSecondsRemaining (quarter f) (clock f) in
     let score_diff_home := (homeScore f - awayScore f)%js in
     let payload :=
       VObj [ ("slug", VStr (slug f));
              ("side", VStr (sideTag (side f)));
              ("fee_cost", VNum (feeCost f));
              ("state", VObj [ ("quarter", VNum (quarter f));
                               ("seconds_remaining", VNum seconds_remaining);
                               ("home_score", VNum (homeScore f));
                               ("away_score", VNum (awayScore f));
                               ("score_diff_home", VNum score_diff_home);
                               ("home_has_ball", VBool (homeHasBall f));
                               ("yardline_100", VNum (yardline100 f));
                               ("down", VNum (down f));
                               ("ydstogo", VNum (ydstogo f)) ]) ] in
     res <- fetch net endpoint payload ;;
     (if negb (ok res)
      then text <- res_text res ;;
           throw ("Backend error " ++ showStatus (httpStatus res) ++ ": "
                    ++ orElse text (statusText res))
      else ret tt) ;;
     data <- res_json res ;;
     setResult (Some data))
    (fun err =>
       console_error err ;;
       setError (Some (orElse err "Unknown error")))
    (setLoading false).

Definition submit (p : Page) (net : Network) : World :=
  snd (handleSubmit p net {| ui := status p; sent := []; console := [] |}).

Definition requests (p : Page) (net : Network) : list Request := sent (submit p net).
Definition shown (p : Page) (net : Network) : Status := ui (submit p net).

(** The request body of this page. *)
Definition payloadFor (f : Fields) : jsval :=
  VObj [ ("slug", VStr (slug f));
         ("side", VStr (sideTag (side f)));
         ("fee_cost", VNum (feeCost f));
         ("state", VObj [ ("quarter", VNum (quarter f));
                          ("seconds_remaining",
                           VNum (computeSecondsRemaining (quarter f) (clock f)));
                          ("home_score", VNum (homeScore f));
                          ("away_score", VNum (awayScore f));
                          ("score_diff_home", VNum (homeScore f - awayScore f)%js);
                          ("home_has_ball", VBool (homeHasBall f));
                          ("yardline_100", VNum (yardline100 f));
                          ("down", VNum (down f));
                          ("ydstogo", VNum (ydstogo f)) ]) ].

End Legacy.

(* ===================================================================== *)
(** ** The form component (app/ev/components/EVForm.tsx) *)

Module EVForm.

(** A value read from a JSON text.  The properties of an object are in
    the order of the text, each key once. *)
#[warnings="-register-all"]
Inductive json : Type :=
| JNull
| JNum (n : jsnum)
| JBool (b : bool)
| JStr (s : string)
| JArr (items : list json)
| JObj (props : list (string * json)).

Fixpoint lookup (k : string) (props : list (string * json)) : option json :=
  match props with
  | [] => None
  | (k', v) :: r => if String.eqb k k' then Some v else lookup k r
  end.

(** [data?.detail]: undefined ([None]) on null, on a value that is not an
    object and on an object without the key. *)
Definition detailOf (data : json) : option json :=
  match data with
  | JObj props => lookup "detail" props
  | _ => None
  end.

Definition truthyJson (v : json) : bool :=
  match v with
  | JNull => false
  | JNum n => negb (JS.isNaN n || isZero n)
  | JBool b => b
  | JStr s => truthy s
  | JArr _ | JObj _ => true
  end.

(** The numeric state of the form; its inputs store [Number(text) || d]. *)
Record Fields : Type := {
  slug : string;
  side : Side;
  quarter : jsnum;
  minutesRemaining : jsnum;
  secondsRemaining : jsnum;
  homeScore : jsnum;
  awayScore : jsnum;
  homeHasBall : bool;
  yardline100 : jsnum;
  down : jsnum;
  ydstogo : jsnum;
  feeCost : jsnum
}.

Definition initialFields : Fields := {|
  slug := "nfl-buf-hou-2025-11-20";
  side := home_yes;
  quarter := num 1;
  minutesRemaining := num 15;
  secondsRemaining := num 0;
  homeScore := num 0;
  awayScore := num 0;
  homeHasBall := true;
  yardline100 := num 75;
  down := num 1;
  ydstogo := num 10;
  feeCost := Fin (Q2Qc (1 # 100))
|}.

(** A response: [parsed] is what [res.json()] gives, the value read or the
    message of the error it rejects with. *)
Record Reply : Type := {
  httpStatus : N;
  statusText : string;
  parsed : string + json
}.

Definition ok (r : Reply) : bool :=
  ((200 <=? httpStatus r) && (httpStatus r <=? 299))%N.

Inductive FetchOutcome : Type :=
| Rejected (message : string)
| Resolved (r : Reply).

Definition Network : Type := string -> jsval -> FetchOutcome.

(** The calls the form makes to the two callbacks it is given. *)
Inductive Callback : Type :=
| OnError (message : option string)
| OnResult (data : option json).

Record World : Type := {
  loading : bool;
  calls : list Callback;
  sent : list Request
}.

Definition Run (A : Type) : Type := World -> (string + A) * World.

Definition pure {A} (a : A) : Run A := fun w => (inr a, w).

Definition andThen {A B} (m : Run A) (k : A -> Run B) : Run B :=
  fun w => match m w with
           | (inl e, w') => (inl e, w')
           | (inr a, w') => k a w'
           end.

Definition next {A} (m : Run unit) (k : Run A) : Run A := andThen m (fun _ => k).

Definition raise {A} (message : string) : Run A := fun w => (inl message, w).

(** [try { body } catch (err) { handler } finally { final }]. *)
Definition attempt (body : Run unit) (handler : string -> Run unit)
    (final : Run unit) : Run unit :=
  fun w =>
    let '(r1, w1) := body w in
    let '(r2, w2) := match r1 with
                     | inl e => handler e w1
                     | inr a => (inr a, w1)
                     end in
    match final w2 with
    | (inl e, w3) => (inl e, w3)
    | (inr _, w3) => (r2, w3)
    end.

Definition setLoading (b : bool) : Run unit :=
  fun w => (inr tt, {| loading := b; calls := calls w; sent := sent w |}).

(** A call of [onError] or [onResult], taken to return normally. *)
Definition call (c : Callback) : Run unit :=
  fun w => (inr tt, {| loading := loading w; calls := (calls w ++ [c])%list;
                       sent := sent w |}).

Definition fetch (net : Network) (u : string) (p : jsval) : Run Reply :=
  fun w =>
    let w' := {| loading := loading w; calls := calls w;
                 sent := (sent w ++ [{| url := u; payload := p |}])%list |} in
    match net u p with
    | Rejected message => (inl message, w')
    | Resolved r => (inr r, w')
    end.

(** [await res.json()]. *)
Definition res_json (r : Reply) : Run json :=
  match parsed r with
  | inl message => raise message
  | inr v => pure v
  end.

(** [await res.json().catch(() => null)]. *)
Definition res_json_or_null (r : Reply) : Run json :=
  match parsed r with
  | inl _ => pure JNull
  | inr v => pure v
  end.

Definition endpoint : string := "http://localhost:8000/ev/game".

Section Handler.

(** [JSON.stringify], of the platform. *)
Variable stringify : json -> string.

(** [typeof detail === "string" ? detail : JSON.stringify(detail)], for
    [detail = data?.detail || res.statusText]. *)
Definition errorText (data : json) (r : Reply) : string :=
  let detail := match detailOf data with
                | Some v => if truthyJson v then v else JStr (statusText r)
                | None => JStr (statusText r)
                end in
  match detail with
  | JStr s => s
  | v => stringify v
  end.

Definition handleSubmit (f : Fields) (net : Network) : Run unit :=
  next (call (OnError None))
 (next (call (OnResult None))
 (next (setLoading true)
 (attempt
    (let totalSeconds := (minutesRemaining f * num 60 + secondsRemaining f)%js in
     let scoreDiffHome := (homeScore f - awayScore f)%js in
     let body :=
       VObj [ ("slug", VStr (trim (slug f)));
              ("side", VStr (sideTag (side f)));
              ("fee_cost", VNum (feeCost f));
              ("state", VObj [ ("quarter", VNum (quarter f));
                               ("seconds_remaining", VNum totalSeconds);
                               ("score_diff_home", VNum scoreDiffHome);
                               ("home_has_ball", VBool (homeHasBall f));
                               ("yardline_100", VNum (yardline100 f));
                               ("down", VNum (down f));
                               ("ydstogo", VNum (ydstogo f)) ]) ] in
     andThen (fetch net endpoint body) (fun res =>
     next (if negb (ok res)
           then andThen (res_json_or_null res) (fun data =>
                raise (errorText data res))
           else pure tt)
    (andThen (res_json res) (fun data =>
     call (OnResult (Some data))))))
    (fun err => call (OnError (Some (orElse err "Failed to compute EV"))))
    (setLoading false)))).

(** One submission of the form holding [f], not loading before it. *)
Definition submit (f : Fields) (net : Network) : World :=
  snd (handleSubmit f net {| loading := false; calls := []; sent := [] |}).

End Handler.

(** The request body of the form. *)
Definition bodyFor (f : Fields) : jsval :=
  VObj [ ("slug", VStr (trim (slug f)));
         ("side", VStr (sideTag (side f)));
         ("fee_cost", VNum (feeCost f));
         ("state", VObj [ ("quarter", VNum (quarter f));
                          ("seconds_remaining",
                           VNum (minutesRemaining f * num 60 + secondsRemaining f)%js);
                          ("score_diff_home", VNum (homeScore f - awayScore f)%js);
                          ("home_has_ball", VBool (homeHasBall f));
                          ("yardline_100", VNum (yardline100 f));
                          ("down", VNum (down f));
                          ("ydstogo", VNum (ydstogo f)) ]) ].

(** A stand-in for [JSON.stringify] where its text does not matter. *)
Definition opaqueText (v : json) : string := "[json]".

Definition validationReply : Reply :=
  {| httpStatus := 422%N; statusText := "Unprocessable Entity";
     parsed := inr (JObj [("detail", JStr "slug not found")]) |}.

End EVForm.

(* ===================================================================== *)
(** ** The arithmetic of the clock conversion on binary64 numbers *)

Module B64.

Import PrimFloat.

(** [Math.max(x, y)], for a first argument that is not -0. *)
Definition Math_max (x y : float) : float :=
  if is_nan x || is_nan y then nan else if ltb x y then y else x.

(** The last three lines of [computeSecondsRemaining], on the numbers
    [mm] and [ss] that the conversion of the two parts gave. *)
Definition secondsRemaining (quarter mm ss : float) : float :=
  let remainingThisQuarter := (mm * 60 + ss)%float in
  let remainingFullQuarters := (Math_max 0 (4 - quarter) * 15 * 60)%float in
  (remainingThisQuarter + remainingFullQuarters)%float.

(** The formula of the specification: (m x 60 + s) + max(0, 4 - q) x 900. *)
Definition secondsFormula (q m s : float) : float :=
  ((m * 60 + s) + Math_max 0 (4 - q) * 900)%float.

Definition zero : float := 0%float.
Definition one : float := 1%float.
Definition two : float := 2%float.
Definition three : float := 3%float.
Definition four : float := 4%float.

(** The binary64 number that the text 3.3 is read as. *)
Definition threePointThree : float := 0x1.a666666666666p+1%float.

(** The binary64 numbers next to 630. *)
Definition above630 : float := 0x1.3b00000000001p+9%float.
Definition twiceAbove630 : float := 0x1.3b00000000002p+9%float.

Definition differ (x y : float) : Prop := PrimFloat.eqb x y = false.

End B64.

(** The mounted page with a quarter of 9, a down of 7, -3 yards to go and
    a fee of -1 typed in. *)
Definition outOfBoundsFields : Fields := {|
  slug := "nfl-buf-hou-2025-11-20";
  side := home_yes;
  quarter := Val (num 9);
  clock := "15:00";
  homeScore := Val (num 14);
  awayScore := Blank;
  homeHasBall := true;
  yardlineLabel := "BUF 25";
  down := Val (num 7);
  ydstogo := Val (num (-3));
  feeCost := Val (num (-1));
  team1 := "BUF";
  team2 := "HOU";
  homeTeam := "BUF";
  awayTeam := "HOU"
|}.

Definition outOfBoundsPage : Page :=
  {| fields := outOfBoundsFields; status := initialStatus |}.

(** The strings on which the case mapping of the embedding is the one of
    the platform: every character is below 128. *)
Definition isAscii (c : ascii) : bool := (code c <? 128)%N.

Definition allAscii (s : string) : bool :=
  negb (anyChar (fun c => negb (isAscii c)) s).

(* ===================================================================== *)
(** ** Facts about numbers *)

Lemma jsnum_eqb_eq (x y : jsnum) : JS.eqb x y = true -> x = y.
Proof.
  destruct x as [|s|a], y as [|t|b]; simpl; try discriminate; intro H.
  - reflexivity.
  - apply Bool.eqb_prop in H. now subst.
  - f_equal. apply Qc_is_canon. now apply Qeq_bool_iff.
Qed.

(** Evaluates a closed equation between numbers. *)
Ltac js_eval := apply jsnum_eqb_eq; vm_compute; reflexivity.

Lemma option_jsnum_eq (x y : jsnum) : x = y -> Some x = Some y.
Proof. now intros ->. Qed.

Lemma le_Fin (a b : Qc) : JS.le (Fin a) (Fin b) <-> (a <= b)%Qc.
Proof. unfold JS.le; simpl. apply Qle_bool_iff. Qed.

Lemma leb_Fin_false (a b : Qc) : JS.leb (Fin a) (Fin b) = false -> (b < a)%Qc.
Proof.
  simpl. intro H. apply Qcnot_le_lt. intro L.
  apply Qle_bool_iff in L. congruence.
Qed.

Lemma le_refl_Fin (a : Qc) : JS.le (Fin a) (Fin a).
Proof. apply le_Fin, Qcle_refl. Qed.

(** A value between two finite bounds is finite. *)
Lemma between_Fin (lo hi : Qc) (x : jsnum) :
  JS.le (Fin lo) x -> JS.le x (Fin hi) ->
  exists q, x = Fin q /\ (lo <= q)%Qc /\ (q <= hi)%Qc.
Proof.
  destruct x as [|s|q]; unfold JS.le; simpl.
  - discriminate.
  - destruct s; discriminate.
  - intros H1 H2. exists q. repeat split; now apply Qle_bool_iff.
Qed.

(** [Math.min(hi, Math.max(lo, x))] stays within the bounds. *)
Lemma clamp_between (lo hi : Qc) (x : jsnum) :
  (lo <= hi)%Qc -> x <> NaN ->
  exists q, JS.Math_min (Fin hi) (JS.Math_max (Fin lo) x) = Fin q
            /\ (lo <= q)%Qc /\ (q <= hi)%Qc.
Proof.
  intros Hlh Hx. destruct x as [|s|a]; [congruence| |].
  - destruct s.
    + (* -Infinity: the maximum is lo *)
      change (JS.Math_max (Fin lo) (Inf true)) with (Fin lo).
      unfold JS.Math_min. destruct (JS.leb (Fin hi) (Fin lo)) eqn:E.
      * exists hi. apply le_Fin in E. auto using Qcle_refl.
      * exists lo. auto using Qcle_refl.
    + (* +Infinity: the minimum is hi *)
      exists hi. split; [reflexivity|]. auto using Qcle_refl.
  - unfold JS.Math_max. destruct (JS.leb (Fin lo) (Fin a)) eqn:E1.
    + apply le_Fin in E1. unfold JS.Math_min.
      destruct (JS.leb (Fin hi) (Fin a)) eqn:E2.
      * exists hi. auto using Qcle_refl.
      * exists a. apply leb_Fin_false in E2. auto using Qclt_le_weak.
    + apply leb_Fin_false in E1. unfold JS.Math_min.
      destruct (JS.leb (Fin hi) (Fin lo)) eqn:E2.
      * exists hi. auto using Qcle_refl.
      * exists lo. auto using Qcle_refl.
Qed.

Lemma jsnum_eqb_refl (x : jsnum) : JS.eqb x x = true.
Proof.
  destruct x as [|s|a]; simpl; auto using Bool.eqb_reflx.
  apply Qeq_bool_iff. reflexivity.
Qed.

Lemma jsnum_eqb_neq (x y : jsnum) : JS.eqb x y = false -> x <> y.
Proof. intros H ->. rewrite jsnum_eqb_refl in H. discriminate. Qed.

(** Evaluates a closed disequation between numbers. *)
Ltac js_differ := apply jsnum_eqb_neq; vm_compute; reflexivity.

(* ===================================================================== *)
(** ** The string primitives on the inputs of the page *)

Example split_clock : split ":" "15:00" = ["15"; "00"].
Proof. reflexivity. Qed.

Example split_keeps_empty_parts : split ":" "15:" = ["15"; EmptyString].
Proof. reflexivity. Qed.

Example split_slug :
  split "-" "nfl-buf-hou-2025-11-20" = ["nfl"; "buf"; "hou"; "2025"; "11"; "20"].
Proof. reflexivity. Qed.

Example splitSpaces_label : splitSpaces (trim "  hou   36 ") = ["hou"; "36"].
Proof. reflexivity. Qed.

Example splitSpaces_leading : splitSpaces " a b" = [EmptyString; "a"; "b"].
Proof. reflexivity. Qed.

Example Number_blank : Number "  " = num 0.
Proof. js_eval. Qed.

Example Number_decimal : Number " 1.5e1 " = num 15.
Proof. js_eval. Qed.

Example Number_hex : Number "0x1F" = num 31.
Proof. js_eval. Qed.

Example Number_words : Number "abc" = NaN /\ Number "1e" = NaN /\ Number "-0x10" = NaN.
Proof. repeat split. Qed.

Example Number_infinity : Number "-Infinity" = Inf true.
Proof. reflexivity. Qed.

Example showStatus_500 : showStatus 500 = "500".
Proof. reflexivity. Qed.

Example mounted_fields :
  homeTeam (fields mountedPage) = "BUF"
  /\ awayTeam (fields mountedPage) = "HOU"
  /\ yardlineLabel (fields mountedPage) = "BUF 25".
Proof. repeat split. Qed.

(* ===================================================================== *)
(** ** Clock conversion *)

Lemma computeSecondsRemaining_two (q : jsnum) (clock a b : string) :
  split ":" clock = [a; b] -> converts a -> converts b ->
  computeSecondsRemaining q clock
  = ((Number a * num 60 + Number b)
     + JS.Math_max (num 0) (num 4 - q) * num 15 * num 60)%js.
Proof.
  unfold converts, computeSecondsRemaining. intros -> Ha Hb.
  assert (JS.isNaN (Number a) || JS.isNaN (Number b) = false) as ->.
  { destruct (Number a), (Number b); try reflexivity; congruence. }
  reflexivity.
Qed.

Lemma computeSecondsRemaining_other (q : jsnum) (clock : string) :
  ~ twoConvertibleParts clock -> computeSecondsRemaining q clock = num 0.
Proof.
  unfold twoConvertibleParts, converts, computeSecondsRemaining. intro H.
  destruct (split ":" clock) as [|a [|b [|c r]]]; try reflexivity.
  destruct (Number a) eqn:Ea; cbn [JS.isNaN orb]; try reflexivity;
    (destruct (Number b) eqn:Eb; cbn [JS.isNaN orb]; try reflexivity);
    exfalso; apply H; exists a, b; rewrite Ea, Eb;
    repeat split; discriminate.
Qed.

(** C2, as stated, fails on binary64 numbers: for quarter 3.3 and a clock
    of 0 minutes 0 seconds the code, which multiplies by 15 and then by
    60, gives 630.0000000000002, and the formula with 900 gives
    630.0000000000001. *)
Lemma fractional_quarter_counterexample :
  B64.secondsRemaining B64.threePointThree B64.zero B64.zero = B64.twiceAbove630
  /\ B64.secondsFormula B64.threePointThree B64.zero B64.zero = B64.above630
  /\ B64.differ (B64.secondsRemaining B64.threePointThree B64.zero B64.zero)
                (B64.secondsFormula B64.threePointThree B64.zero B64.zero).
Proof. repeat split; vm_compute; reflexivity. Qed.

(** C2, amended. For every quarter number [q] and every clock string made
    of two colon-separated numeric parts of values [m] and [s],
    [computeSecondsRemaining q clock] is
    (m x 60 + s) + max(0, 4 - q) x 15 x 60, the products taken in that
    order; for the quarters 1, 2, 3 and 4 this is
    (m x 60 + s) + max(0, 4 - q) x 900, on exact and on binary64 numbers
    alike.  Quarter 1 at "15:00" gives 3600 and quarter 4 at "0:30"
    gives 30. *)
Theorem clock_conversion_formula :
  (forall (q : jsnum) (clock a b : string) (m s : jsnum),
      split ":" clock = [a; b] ->
      Number a = m -> m <> NaN ->
      Number b = s -> s <> NaN ->
      computeSecondsRemaining q clock
      = ((m * num 60 + s) + JS.Math_max (num 0) (num 4 - q) * num 15 * num 60)%js
      /\ (q = num 1 \/ q = num 2 \/ q = num 3 \/ q = num 4 ->
          computeSecondsRemaining q clock = secondsFormula q m s))
  /\ (forall q mm ss : PrimFloat.float,
        q = B64.one \/ q = B64.two \/ q = B64.three \/ q = B64.four ->
        B64.secondsRemaining q mm ss = B64.secondsFormula q mm ss)
  /\ computeSecondsRemaining (num 1) "15:00" = num 3600
  /\ computeSecondsRemaining (num 4) "0:30" = num 30.
Proof.
  split; [|split; [|split]].
  - intros q clock a b m s Hsplit <- Hm <- Hs.
    rewrite (computeSecondsRemaining_two q clock a b Hsplit Hm Hs).
    split; [reflexivity|].
    unfold secondsFormula.
    intros [->|[->|[->| ->]]]; f_equal; js_eval.
  - intros q mm ss [->|[->|[->| ->]]]; vm_compute; reflexivity.
  - js_eval.
  - js_eval.
Qed.

Lemma clock_conversion_formula_witness :
  computeSecondsRemaining (num 2) "07:30"
  = ((num 7 * num 60 + num 30)
     + JS.Math_max (num 0) (num 4 - num 2) * num 15 * num 60)%js
  /\ computeSecondsRemaining (num 2) "07:30" = secondsFormula (num 2) (num 7) (num 30)
  /\ B64.secondsRemaining B64.three B64.zero B64.zero
     = B64.secondsFormula B64.three B64.zero B64.zero.
Proof.
  destruct clock_conversion_formula as (Hexact & Hb64 & _).
  destruct (Hexact (num 2) "07:30" "07" "30" (num 7) (num 30)) as [H1 H2].
  - reflexivity.
  - js_eval.
  - js_differ.
  - js_eval.
  - js_differ.
  - split; [exact H1|]. split.
    + apply H2. right. left. reflexivity.
    + apply Hb64. right. right. left. reflexivity.
Defined.

(** C4, as stated, fails: the clock "15:" has a blank seconds part, so it
    does not consist of two numeric parts, yet in quarter 1 the result is
    3600 and not 0. *)
Lemma blank_clock_part_counterexample :
  ~ twoNumericParts "15:"
  /\ computeSecondsRemaining (num 1) "15:" = num 3600
  /\ computeSecondsRemaining (num 1) "15:" <> num 0.
Proof.
  split; [|split].
  - intros (a & b & Hsplit & _ & Hb & _).
    vm_compute in Hsplit. injection Hsplit as _ <-.
    now apply Hb.
  - js_eval.
  - js_differ.
Qed.

(** C4, amended. For every quarter number and every clock string that does
    not consist of exactly two colon-separated parts accepted by the
    numeric conversion (a blank part is accepted and counts as 0),
    [computeSecondsRemaining] returns 0, which is not NaN. *)
Theorem malformed_clock_is_zero (q : jsnum) (clock : string) :
  ~ twoConvertibleParts clock ->
  computeSecondsRemaining q clock = num 0
  /\ JS.isNaN (computeSecondsRemaining q clock) = false.
Proof.
  intro H. rewrite (computeSecondsRemaining_other q clock H). now split.
Qed.

Lemma malformed_clock_is_zero_witness :
  computeSecondsRemaining NaN "12:xx" = num 0
  /\ JS.isNaN (computeSecondsRemaining NaN "12:xx") = false.
Proof.
  apply (malformed_clock_is_zero NaN "12:xx").
  intros (a & b & Hsplit & _ & Hb).
  vm_compute in Hsplit. injection Hsplit as _ <-.
  apply Hb. reflexivity.
Defined.

(* ===================================================================== *)
(** ** Yardline labels *)

Lemma sub_not_NaN (z : Z) (y : jsnum) : y <> NaN -> (num z - y)%js <> NaN.
Proof. destruct y; [congruence| |]; discriminate. Qed.

Lemma clamp100_range (y : jsnum) :
  y <> NaN -> (num 0 <= clamp100 y <= num 100)%js.
Proof.
  intro Hy. unfold clamp100, num, JS.ofZ.
  destruct (clamp_between (Q2Qc (inject_Z 0)) (Q2Qc (inject_Z 100)) y)
    as (q & -> & Hlo & Hhi); [now apply le_Fin|exact Hy|].
  split; now apply le_Fin.
Qed.

(** The label of a successful conversion, and the branch that was taken. *)
Lemma parseYardlineLabel_Some (label home away : string) (v : jsnum) :
  parseYardlineLabel label home away = Some v ->
  exists t y, LabelOf label t y
    /\ ((sameCode t home /\ v = clamp100 y)
        \/ (~ sameCode t home /\ sameCode t away /\ v = clamp100 (num 100 - y)%js)).
Proof.
  unfold parseYardlineLabel, LabelOf, sameCode.
  destruct (truthy (trim label)); [|discriminate]. cbn [negb].
  destruct (splitSpaces (trim label)) as [|t [|n [|x r]]]; try discriminate.
  destruct (JS.isNaN (Number n)) eqn:En; [discriminate|].
  assert (Number n <> NaN) by (intros E; rewrite E in En; discriminate).
  destruct (String.eqb_spec (toUpperCase t) (toUpperCase home)) as [Eh|Eh].
  - intros [= <-]. exists t, (Number n). split; [now exists n|now left].
  - destruct (String.eqb_spec (toUpperCase t) (toUpperCase away)) as [Ea|Ea];
      [|discriminate].
    intros [= <-]. exists t, (Number n). split; [now exists n|now right].
Qed.

Lemma parseYardlineLabel_LabelOf (label home away t : string) (y : jsnum) :
  LabelOf label t y ->
  parseYardlineLabel label home away =
    if String.eqb (toUpperCase t) (toUpperCase home) then Some (clamp100 y)
    else if String.eqb (toUpperCase t) (toUpperCase away)
         then Some (clamp100 (num 100 - y)%js)
         else None.
Proof.
  intros (n & Hsplit & Hn & Hy). unfold parseYardlineLabel.
  destruct (trim label) as [|c r] eqn:Et; [discriminate Hsplit|].
  cbn [truthy negb]. rewrite Hsplit, Hn.
  destruct y; [congruence| |]; reflexivity.
Qed.

Lemma parseYardlineLabel_no_label (label home away : string) :
  (~ exists t y, LabelOf label t y) ->
  parseYardlineLabel label home away = None.
Proof.
  intro H. destruct (parseYardlineLabel label home away) as [v|] eqn:E; [|reflexivity].
  destruct (parseYardlineLabel_Some _ _ _ _ E) as (t & y & HL & _).
  exfalso. apply H. now exists t, y.
Qed.

(** What clamping to [0,100] does to a value, bound by bound. *)
Lemma clamp100_clamps (y : jsnum) :
  ((num 0 <= y <= num 100)%js -> clamp100 y = y)
  /\ ((y <= num 0)%js -> clamp100 y = num 0)
  /\ ((num 100 <= y)%js -> clamp100 y = num 100).
Proof.
  unfold clamp100, num, JS.ofZ. repeat split.
  - intros [H0 H100]. destruct (between_Fin _ _ _ H0 H100) as (a & -> & _).
    unfold JS.Math_max. rewrite H0. unfold JS.Math_min.
    destruct (JS.leb _ (Fin a)) eqn:E; [|reflexivity].
    f_equal. apply Qcle_antisym; now apply le_Fin.
  - intro H. destruct y as [|s|a]; [discriminate H| |].
    + destruct s; [reflexivity|discriminate H].
    + unfold JS.Math_max. destruct (JS.leb _ (Fin a)) eqn:E.
      * assert (Ea : a = Q2Qc (inject_Z 0))
          by (apply Qcle_antisym; now apply le_Fin).
        rewrite Ea. reflexivity.
      * reflexivity.
  - intro H. destruct y as [|s|a]; [discriminate H| |].
    + destruct s; [discriminate H|reflexivity].
    + assert (H0 : JS.leb (Fin (Q2Qc (inject_Z 0))) (Fin a) = true).
      { apply le_Fin. apply Qcle_trans with (Q2Qc (inject_Z 100));
          [now apply le_Fin|now apply le_Fin]. }
      unfold JS.Math_max. rewrite H0. unfold JS.Math_min. now rewrite H.
Qed.

(** C1. For every label, home code and away code, the rules being read
    in the order they are given: a team part matching the home code (up to
    case) gives the yards clamped to [0,100]; otherwise a team part
    matching the away code gives 100 minus the yards, clamped to [0,100];
    a team part matching neither, or a label that is not exactly a team
    part and a numeric part, gives null.  Clamping leaves a value between
    0 and 100 as it is, raises a lower one to 0 and lowers a higher one to
    100.  With home "HOU" and away "BUF": "HOU 36" gives 36, "BUF 12"
    gives 88, "NYJ 10" fails. *)
Theorem yardline_label_rules :
  (forall label home away,
      homeRule label home away
      /\ awayRuleAfterHome label home away
      /\ failureRule label home away)
  /\ (forall label home away v,
        parseYardlineLabel label home away = Some v ->
        (num 0 <= v <= num 100)%js)
  /\ (forall y,
        ((num 0 <= y <= num 100)%js -> clamp100 y = y)
        /\ ((y <= num 0)%js -> clamp100 y = num 0)
        /\ ((num 100 <= y)%js -> clamp100 y = num 100))
  /\ parseYardlineLabel "HOU 36" "HOU" "BUF" = Some (num 36)
  /\ parseYardlineLabel "BUF 12" "HOU" "BUF" = Some (num 88)
  /\ parseYardlineLabel "NYJ 10" "HOU" "BUF" = None.
Proof.
  split; [|split; [|split; [|split; [|split]]]].
  - intros label home away. unfold homeRule, awayRuleAfterHome, failureRule, sameCode.
    repeat split.
    + intros t y HL Hh. rewrite (parseYardlineLabel_LabelOf _ home away _ _ HL).
      apply String.eqb_eq in Hh. now rewrite Hh.
    + intros t y HL Hh Ha. rewrite (parseYardlineLabel_LabelOf _ home away _ _ HL).
      apply String.eqb_neq in Hh. apply String.eqb_eq in Ha. now rewrite Hh, Ha.
    + intros t y HL Hh Ha. rewrite (parseYardlineLabel_LabelOf _ home away _ _ HL).
      apply String.eqb_neq in Hh, Ha. now rewrite Hh, Ha.
    + apply parseYardlineLabel_no_label.
  - intros label home away v E.
    destruct (parseYardlineLabel_Some _ _ _ _ E)
      as (t & y & (n & _ & _ & Hy) & [[_ ->]|(_ & _ & ->)]).
    + now apply clamp100_range.
    + now apply clamp100_range, sub_not_NaN.
  - exact clamp100_clamps.
  - apply option_jsnum_eq. js_eval.
  - apply option_jsnum_eq. js_eval.
  - reflexivity.
Qed.

Lemma yardline_label_rules_witness :
  parseYardlineLabel " buf   12" "Hou" "Buf" = Some (clamp100 (num 100 - num 12)%js).
Proof.
  destruct (proj1 yardline_label_rules " buf   12" "Hou" "Buf") as (_ & Haway & _).
  apply (Haway "buf" (num 12)).
  - exists "12". split; [reflexivity|]. split; [js_eval|js_differ].
  - unfold sameCode. vm_compute. discriminate.
  - reflexivity.
Defined.

(* ===================================================================== *)
(** ** The submission handler, case by case *)

Ltac run_handler :=
  cbv [requests shown submit handleSubmit tryCatchFinally bind ret throw
       setError setResult setYardlineError setLoading modifyStatus
       console_error fetch res_text res_json snd fst
       ui sent console loading error result yardlineError yardlineOf].

(** An unreadable yardline: no request, the field error, the generic
    message unless a field error was already on display. *)
Lemma submit_unreadable (p : Page) (net : Network) :
  yardlineOf (fields p) = None ->
  submit p net =
    {| ui := {| loading := false;
                error := if falsy (yardlineError (status p))
                         then Some "Invalid yardline format" else None;
                result := None;
                yardlineError :=
                  Some (yardlineMessage (homeTeam (fields p)) (awayTeam (fields p))) |};
       sent := [];
       console := ["Invalid yardline format"] |}.
Proof.
  unfold yardlineOf. intro H. run_handler. rewrite H.
  destruct (falsy _); reflexivity.
Qed.

(** A readable yardline: exactly one request, whatever comes back. *)
Lemma requests_readable (p : Page) (net : Network) (yl : jsnum) :
  yardlineOf (fields p) = Some yl ->
  requests p net = [ {| url := endpoint; payload := payloadFor (fields p) yl |} ].
Proof.
  unfold yardlineOf. intro H. run_handler. rewrite H.
  fold (quarterOf (fields p)) (downOf (fields p)) (ydstogoOf (fields p)) (feeOf (fields p)).
  fold (payloadFor (fields p) yl).
  destruct (net endpoint (payloadFor (fields p) yl)) as [m|r].
  - destruct (falsy _); reflexivity.
  - destruct (ok r); cbn [negb].
    + destruct (json r); try destruct (falsy _); reflexivity.
    + destruct (falsy _); reflexivity.
Qed.

Lemma requests_inv (p : Page) (net : Network) (r : Request) :
  In r (requests p net) ->
  exists yl, yardlineOf (fields p) = Some yl
             /\ r = {| url := endpoint; payload := payloadFor (fields p) yl |}.
Proof.
  destruct (yardlineOf (fields p)) as [yl|] eqn:E.
  - rewrite (requests_readable p net yl E). intros [<-|[]]. now exists yl.
  - unfold requests. rewrite (submit_unreadable p net E). intros [].
Qed.

(** C3. Whenever the yardline label does not parse against the selected
    home and away codes, the submission issues no request: the handler
    sets the yardline field error and the attempt is over (no result, the
    loading flag cleared). *)
Theorem unreadable_yardline_sends_nothing (p : Page) (net : Network) :
  parseYardlineLabel (yardlineLabel (fields p)) (homeTeam (fields p))
                     (awayTeam (fields p)) = None ->
  requests p net = []
  /\ yardlineError (shown p net)
     = Some (yardlineMessage (homeTeam (fields p)) (awayTeam (fields p)))
  /\ result (shown p net) = None
  /\ loading (shown p net) = false.
Proof.
  intro H. unfold requests, shown.
  rewrite (submit_unreadable p net H). repeat split.
Qed.

Lemma unreadable_yardline_sends_nothing_witness :
  let p := {| fields := setYardlineLabel "NYJ 10" (fields mountedPage);
              status := initialStatus |} in
  requests p (backend serverError) = []
  /\ yardlineError (shown p (backend serverError))
     = Some (yardlineMessage "BUF" "HOU")
  /\ result (shown p (backend serverError)) = None
  /\ loading (shown p (backend serverError)) = false.
Proof.
  intro p. apply (unreadable_yardline_sends_nothing p (backend serverError)).
  reflexivity.
Defined.

(* ===================================================================== *)
(** ** Defaults and bounds of the numeric fields *)

Lemma parseOrDefault_not_NaN (v : field) (d : jsnum) :
  d <> NaN -> parseOrDefault v d <> NaN.
Proof.
  intro Hd. destruct v as [|n]; [exact Hd|].
  destruct n; [exact Hd| |]; discriminate.
Qed.

Lemma num_not_NaN (z : Z) : num z <> NaN.
Proof. discriminate. Qed.

Lemma clamp_range (lo hi : Z) (x : jsnum) :
  (lo <= hi)%Z -> x <> NaN ->
  (num lo <= JS.Math_min (num hi) (JS.Math_max (num lo) x) <= num hi)%js.
Proof.
  intros Hlh Hx. unfold num, JS.ofZ.
  destruct (clamp_between (Q2Qc (inject_Z lo)) (Q2Qc (inject_Z hi)) x)
    as (q & -> & H1 & H2); [|exact Hx|split; now apply le_Fin].
  unfold Qcle, Q2Qc; cbn [this]. rewrite !Qred_correct.
  now rewrite <- Zle_Qle.
Qed.

Lemma max_lower (lo : Z) (x : jsnum) :
  x <> NaN -> (num lo <= JS.Math_max (num lo) x)%js.
Proof.
  intro Hx. unfold num, JS.ofZ. destruct x as [|s|a]; [congruence| |].
  - destruct s; [apply le_refl_Fin|reflexivity].
  - unfold JS.Math_max. destruct (JS.leb _ (Fin a)) eqn:E;
      [exact E|apply le_refl_Fin].
Qed.

Lemma max_keeps (lo : Z) (d x : jsnum) :
  (num lo <= x)%js -> JS.Math_max (num lo) (parseOrDefault (Val x) d) = x.
Proof.
  unfold num, JS.ofZ. intro H. destruct x as [|s|q].
  - discriminate H.
  - destruct s; [discriminate H|reflexivity].
  - cbn [parseOrDefault JS.isNaN negb]. unfold JS.Math_max. now rewrite H.
Qed.

Lemma clamp_keeps (lo hi : Z) (d x : jsnum) :
  (num lo <= x <= num hi)%js ->
  JS.Math_min (num hi) (JS.Math_max (num lo) (parseOrDefault (Val x) d)) = x.
Proof.
  intros [H1 H2]. rewrite (max_keeps lo d x H1).
  unfold num, JS.ofZ in *. destruct (between_Fin _ _ _ H1 H2) as (q & -> & _).
  unfold JS.Math_min. destruct (JS.leb _ (Fin q)) eqn:E; [|reflexivity].
  f_equal. apply Qcle_antisym; now apply le_Fin.
Qed.

Lemma num_le (a b : Z) : (a <= b)%Z -> (num a <= num b)%js.
Proof.
  intro H. apply le_Fin. unfold Qcle, Q2Qc; cbn [this].
  rewrite !Qred_correct. now rewrite <- Zle_Qle.
Qed.

Lemma le_antisym (x y : jsnum) : (x <= y)%js -> (y <= x)%js -> x = y.
Proof.
  destruct x as [|[]|a], y as [|[]|b]; try discriminate; try reflexivity.
  intros H1 H2. f_equal. apply Qcle_antisym; now apply le_Fin.
Qed.

Lemma le_trans (x y z : jsnum) : (x <= y)%js -> (y <= z)%js -> (x <= z)%js.
Proof.
  destruct x as [|[]|a], y as [|[]|b], z as [|[]|c];
    try discriminate; try reflexivity.
  intros H1 H2. apply le_Fin. apply Qcle_trans with b; now apply le_Fin.
Qed.

Lemma parseOrDefault_Val (x d : jsnum) : x <> NaN -> parseOrDefault (Val x) d = x.
Proof. destruct x; [congruence| |]; reflexivity. Qed.

(** A value at or under the lower bound is raised to it. *)
Lemma max_raises (lo : Z) (d x : jsnum) :
  (x <= num lo)%js -> JS.Math_max (num lo) (parseOrDefault (Val x) d) = num lo.
Proof.
  intro H.
  assert (Hx : x <> NaN) by (intros ->; discriminate H).
  rewrite (parseOrDefault_Val x d Hx).
  destruct x as [|s|a]; [discriminate H| |].
  - destruct s; [reflexivity|discriminate H].
  - unfold JS.Math_max, num, JS.ofZ in *.
    destruct (JS.leb _ (Fin a)) eqn:E; [|reflexivity].
    now apply le_antisym.
Qed.

Lemma clamp_raises (lo hi : Z) (d x : jsnum) :
  (lo <= hi)%Z -> (x <= num lo)%js ->
  JS.Math_min (num hi) (JS.Math_max (num lo) (parseOrDefault (Val x) d)) = num lo.
Proof.
  intros Hlh H. rewrite (max_raises lo d x H).
  pose proof (num_le lo hi Hlh) as Hle.
  unfold JS.Math_min, num, JS.ofZ in *.
  destruct (JS.leb _ _) eqn:E; [|reflexivity].
  now apply le_antisym.
Qed.

(** A value at or over the upper bound is lowered to it. *)
Lemma clamp_lowers (lo hi : Z) (d x : jsnum) :
  (lo <= hi)%Z -> (num hi <= x)%js ->
  JS.Math_min (num hi) (JS.Math_max (num lo) (parseOrDefault (Val x) d)) = num hi.
Proof.
  intros Hlh H.
  assert (Hlo : (num lo <= x)%js)
    by (apply (le_trans _ (num hi)); [now apply num_le|exact H]).
  rewrite (max_keeps lo d x Hlo).
  destruct x as [|s|a]; [discriminate H| |].
  - destruct s; [discriminate H|reflexivity].
  - unfold JS.Math_min, num, JS.ofZ in *. now rewrite H.
Qed.

(** C5. At submission an empty numeric field is replaced by the default
    the handler passes for it, and the bounded fields are clamped into
    the payload: quarter and down to [1,4], yards-to-go to at least 1, the
    fee to at least 0: a value within the bounds is kept as it is, a value
    under the lower bound is sent as that bound and a value over the upper
    bound as that bound.  A down of 7 is sent as 4 and a fee of -1 as 0.
    The request goes out whenever the yardline label is read, whatever
    the numeric fields hold. *)
Theorem numeric_fields_default_and_clamp :
  (forall d, parseOrDefault Blank d = d)
  /\ (forall p net r, In r (requests p net) ->
        let f := fields p in
        prop2 "state" "quarter" (payload r) = Some (VNum (quarterOf f))
        /\ prop2 "state" "down" (payload r) = Some (VNum (downOf f))
        /\ prop2 "state" "ydstogo" (payload r) = Some (VNum (ydstogoOf f))
        /\ prop "fee_cost" (payload r) = Some (VNum (feeOf f))
        /\ prop2 "state" "home_score" (payload r)
           = Some (VNum (parseOrDefault (homeScore f) (num 0)))
        /\ prop2 "state" "away_score" (payload r)
           = Some (VNum (parseOrDefault (awayScore f) (num 0))))
  /\ (forall f,
        (num 1 <= quarterOf f <= num 4)%js
        /\ (num 1 <= downOf f <= num 4)%js
        /\ (num 1 <= ydstogoOf f)%js
        /\ (num 0 <= feeOf f)%js)
  /\ (forall f x,
        (quarter f = Val x -> (num 1 <= x <= num 4)%js -> quarterOf f = x)
        /\ (down f = Val x -> (num 1 <= x <= num 4)%js -> downOf f = x)
        /\ (ydstogo f = Val x -> (num 1 <= x)%js -> ydstogoOf f = x)
        /\ (feeCost f = Val x -> (num 0 <= x)%js -> feeOf f = x))
  /\ (forall f x,
        (quarter f = Val x -> (x <= num 1)%js -> quarterOf f = num 1)
        /\ (quarter f = Val x -> (num 4 <= x)%js -> quarterOf f = num 4)
        /\ (down f = Val x -> (x <= num 1)%js -> downOf f = num 1)
        /\ (down f = Val x -> (num 4 <= x)%js -> downOf f = num 4)
        /\ (ydstogo f = Val x -> (x <= num 1)%js -> ydstogoOf f = num 1)
        /\ (feeCost f = Val x -> (x <= num 0)%js -> feeOf f = num 0)
        /\ (homeScore f = Val x -> x <> NaN ->
            parseOrDefault (homeScore f) (num 0) = x)
        /\ (awayScore f = Val x -> x <> NaN ->
            parseOrDefault (awayScore f) (num 0) = x))
  /\ (forall f,
        (quarter f = Blank -> quarterOf f = num 1)
        /\ (down f = Blank -> downOf f = num 1)
        /\ (ydstogo f = Blank -> ydstogoOf f = num 10)
        /\ (feeCost f = Blank -> feeOf f = num 0)
        /\ (homeScore f = Blank -> parseOrDefault (homeScore f) (num 0) = num 0)
        /\ (awayScore f = Blank -> parseOrDefault (awayScore f) (num 0) = num 0))
  /\ (forall f, down f = Val (num 7) -> downOf f = num 4)
  /\ (forall f, feeCost f = Val (num (-1)) -> feeOf f = num 0)
  /\ (forall p net yl, yardlineOf (fields p) = Some yl ->
        exists r, requests p net = [r]).
Proof.
  split; [reflexivity|].
  split.
  { intros p net r Hr f. destruct (requests_inv p net r Hr) as (yl & _ & ->).
    repeat split. }
  split.
  { intro f. unfold quarterOf, downOf, ydstogoOf, feeOf. repeat split;
      first [ apply (proj1 (clamp_range 1 4 _ ltac:(lia)
                              (parseOrDefault_not_NaN _ _ (num_not_NaN _))))
            | apply (proj2 (clamp_range 1 4 _ ltac:(lia)
                              (parseOrDefault_not_NaN _ _ (num_not_NaN _))))
            | apply max_lower, parseOrDefault_not_NaN, num_not_NaN ]. }
  split.
  { intros f x. unfold quarterOf, downOf, ydstogoOf, feeOf.
    repeat split; intros -> H;
      first [ now apply clamp_keeps | now apply max_keeps ]. }
  split.
  { intros f x. unfold quarterOf, downOf, ydstogoOf, feeOf.
    repeat split; intros -> H;
      first [ apply clamp_raises; [lia|exact H]
            | apply clamp_lowers; [lia|exact H]
            | now apply max_raises
            | now apply parseOrDefault_Val ]. }
  split.
  { intro f. unfold quarterOf, downOf, ydstogoOf, feeOf.
    repeat split; intros ->; cbn [parseOrDefault]; try reflexivity; js_eval. }
  split.
  { intros f H. unfold downOf. rewrite H. js_eval. }
  split.
  { intros f H. unfold feeOf. rewrite H. js_eval. }
  intros p net yl H.
  exists {| url := endpoint; payload := payloadFor (fields p) yl |}.
  exact (requests_readable p net yl H).
Qed.

Lemma numeric_fields_default_and_clamp_witness :
  quarterOf outOfBoundsFields = num 4
  /\ downOf outOfBoundsFields = num 4
  /\ ydstogoOf outOfBoundsFields = num 1
  /\ feeOf outOfBoundsFields = num 0
  /\ parseOrDefault (homeScore outOfBoundsFields) (num 0) = num 14
  /\ parseOrDefault (awayScore outOfBoundsFields) (num 0) = num 0
  /\ quarterOf (fields mountedPage) = num 1
  /\ exists r, requests outOfBoundsPage offline = [r].
Proof.
  destruct numeric_fields_default_and_clamp
    as (_ & _ & _ & Hkeep & Hclamp & Hblank & _ & _ & Hsent).
  destruct (Hclamp outOfBoundsFields (num 9)) as (_ & Hq & _).
  destruct (Hclamp outOfBoundsFields (num 7)) as (_ & _ & _ & Hd & _).
  destruct (Hclamp outOfBoundsFields (num (-3))) as (_ & _ & _ & _ & Hy & _).
  destruct (Hclamp outOfBoundsFields (num (-1))) as (_ & _ & _ & _ & _ & Hf & _).
  destruct (Hclamp outOfBoundsFields (num 14)) as (_ & _ & _ & _ & _ & _ & Hh & _).
  destruct (Hblank outOfBoundsFields) as (_ & _ & _ & _ & _ & Ha).
  split; [apply Hq; reflexivity|].
  split; [apply Hd; reflexivity|].
  split; [apply Hy; reflexivity|].
  split; [apply Hf; reflexivity|].
  split; [apply Hh; [reflexivity|discriminate]|].
  split; [apply Ha; reflexivity|].
  split.
  - apply (proj1 (Hkeep (fields mountedPage) (num 1))); [reflexivity|].
    split; reflexivity.
  - apply (Hsent outOfBoundsPage offline (clamp100 (Number "25"))). reflexivity.
Defined.

(* ===================================================================== *)
(** ** The derived seconds remaining *)

Ltac qc_arith :=
  unfold Qcle, Qcplus, Qcmult, Qcopp, Q2Qc in *; cbn [this] in *;
  rewrite ?Qred_correct in *; unfold inject_Z in *; lra.

(** The full quarters left after a quarter between 1 and 4 are worth
    between 0 and 2700 seconds. *)
Lemma full_quarters_range (q : Qc) :
  (Q2Qc (inject_Z 1) <= q)%Qc -> (q <= Q2Qc (inject_Z 4))%Qc ->
  exists r, (JS.Math_max (num 0) (num 4 - Fin q) * num 15 * num 60)%js = Fin r
            /\ (Q2Qc (inject_Z 0) <= r)%Qc /\ (r <= Q2Qc (inject_Z 2700))%Qc.
Proof.
  intros H1 H4. unfold num, JS.ofZ, JS.sub, JS.neg, JS.add, JS.Math_max.
  destruct (JS.leb _ _) eqn:E.
  - eexists. split; [reflexivity|]. apply le_Fin in E. split; qc_arith.
  - eexists. split; [reflexivity|]. split; qc_arith.
Qed.

Lemma quarterOf_Fin (f : Fields) :
  exists q, quarterOf f = Fin q
            /\ (Q2Qc (inject_Z 1) <= q)%Qc /\ (q <= Q2Qc (inject_Z 4))%Qc.
Proof.
  unfold quarterOf, num, JS.ofZ. apply clamp_between.
  - qc_arith.
  - apply parseOrDefault_not_NaN. discriminate.
Qed.

Lemma computeSecondsRemaining_clockSeconds (q : jsnum) (clock : string) :
  computeSecondsRemaining q clock = num 0
  \/ computeSecondsRemaining q clock
     = (clockSeconds clock + JS.Math_max (num 0) (num 4 - q) * num 15 * num 60)%js.
Proof.
  unfold computeSecondsRemaining, clockSeconds.
  destruct (split ":" clock) as [|a [|b [|c r]]]; auto.
  destruct (JS.isNaN (Number a) || JS.isNaN (Number b)); auto.
Qed.

Lemma seconds_remaining_range (f : Fields) :
  (num 0 <= clockSeconds (clock f) <= num 900)%js ->
  (num 0 <= computeSecondsRemaining (quarterOf f) (clock f) <= num 3600)%js.
Proof.
  intros [H0 H900].
  destruct (computeSecondsRemaining_clockSeconds (quarterOf f) (clock f)) as [->| ->].
  - split; reflexivity.
  - destruct (quarterOf_Fin f) as (q & -> & Hq1 & Hq4).
    destruct (full_quarters_range q Hq1 Hq4) as (r & -> & Hr0 & Hr).
    unfold num, JS.ofZ in *.
    destruct (between_Fin _ _ _ H0 H900) as (c & -> & Hc0 & Hc).
    cbn [JS.add]. split; apply le_Fin; qc_arith.
Qed.

Lemma payloadFor_seconds (f : Fields) (yl : jsnum) :
  prop2 "state" "seconds_remaining" (payloadFor f yl)
  = Some (VNum (computeSecondsRemaining (quarterOf f) (clock f))).
Proof. reflexivity. Qed.

(** C6, as stated, fails: the clock is free text that is not range
    checked; with "20:00" on the clock in quarter 1 the page sends
    seconds_remaining = 3900. *)
Lemma long_clock_counterexample :
  exists r, In r (requests {| fields := setClock "20:00" (fields mountedPage);
                            status := initialStatus |} offline)
            /\ prop2 "state" "seconds_remaining" (payload r) = Some (VNum (num 3900))
            /\ ~ (num 3900 <= num 3600)%js.
Proof.
  eexists. split; [|split].
  - rewrite (requests_readable
               {| fields := setClock "20:00" (fields mountedPage);
                  status := initialStatus |}
               offline (clamp100 (Number "25")) eq_refl).
    left. reflexivity.
  - cbn [payload]. rewrite payloadFor_seconds.
    apply (f_equal Some), (f_equal VNum). js_eval.
  - discriminate.
Qed.

(** C6, amended. In every submitted payload, state.seconds_remaining lies
    between 0 and 3600 whenever the clock string is read as a time between
    0 and 900 seconds (a clock that is not read counts as 0). *)
Theorem seconds_remaining_bounds (p : Page) (net : Network) (r : Request) :
  In r (requests p net) ->
  (num 0 <= clockSeconds (clock (fields p)) <= num 900)%js ->
  exists v, prop2 "state" "seconds_remaining" (payload r) = Some (VNum v)
            /\ (num 0 <= v <= num 3600)%js.
Proof.
  intros Hr Hclock. destruct (requests_inv p net r Hr) as (yl & _ & ->).
  exists (computeSecondsRemaining (quarterOf (fields p)) (clock (fields p))).
  split; [reflexivity|]. now apply seconds_remaining_range.
Qed.

Lemma seconds_remaining_bounds_witness :
  exists v, prop2 "state" "seconds_remaining"
              (payloadFor (fields mountedPage) (clamp100 (Number "25")))
            = Some (VNum v)
            /\ (num 0 <= v <= num 3600)%js.
Proof.
  apply (seconds_remaining_bounds mountedPage offline
           {| url := endpoint;
              payload := payloadFor (fields mountedPage) (clamp100 (Number "25")) |}).
  - rewrite (requests_readable mountedPage offline (clamp100 (Number "25")) eq_refl).
    left. reflexivity.
  - split; vm_compute; reflexivity.
Defined.

(* ===================================================================== *)
(** ** Failures of the backend *)

(** A response outside 200-299 with no field error on display when the
    submission started. *)
Lemma submit_backend_failure (p : Page) (net : Network) (yl : jsnum) (res : Response) :
  yardlineOf (fields p) = Some yl ->
  net endpoint (payloadFor (fields p) yl) = Resolved res ->
  ok res = false ->
  shown p net =
    {| loading := false;
       error := if falsy (yardlineError (status p))
                then Some ("Backend error " ++ showStatus (httpStatus res) ++ ": "
                             ++ orElse (body res) (statusText res))
                else None;
       result := None;
       yardlineError := None |}.
Proof.
  unfold yardlineOf. intros H Hnet Hok. run_handler. rewrite H.
  fold (quarterOf (fields p)) (downOf (fields p)) (ydstogoOf (fields p)) (feeOf (fields p)).
  fold (payloadFor (fields p) yl). rewrite Hnet, Hok. cbn [negb].
  destruct (falsy _); [|reflexivity].
  unfold orElse at 1. reflexivity.
Qed.

(** C7, as stated, fails: for a 500 response with body "boom" the page
    shows "Backend error 500: boom", which is not the body text alone. *)
Lemma backend_error_prefix_counterexample :
  ok serverError = false
  /\ error (shown mountedPage (backend serverError)) = Some "Backend error 500: boom"
  /\ ~ surfacedVerbatim mountedPage (backend serverError) serverError.
Proof.
  assert (E : error (shown mountedPage (backend serverError))
              = Some "Backend error 500: boom").
  { rewrite (submit_backend_failure mountedPage (backend serverError)
               (clamp100 (Number "25")) serverError eq_refl eq_refl eq_refl).
    reflexivity. }
  split; [reflexivity|]. split; [exact E|].
  unfold surfacedVerbatim. rewrite E. discriminate.
Qed.

(** C7, amended. For every response outside 200-299 to a submission that
    started with no yardline error on display, the submission fails (no
    result, loading cleared) and the page-level error is "Backend error ",
    the status code, ": " and then the body text as it is, or the status
    text as it is when the body is empty. *)
Theorem backend_failure_message
    (p : Page) (net : Network) (yl : jsnum) (res : Response) :
  yardlineOf (fields p) = Some yl ->
  net endpoint (payloadFor (fields p) yl) = Resolved res ->
  ok res = false ->
  falsy (yardlineError (status p)) = true ->
  error (shown p net)
    = Some ("Backend error " ++ showStatus (httpStatus res) ++ ": "
              ++ (if String.eqb (body res) EmptyString
                  then statusText res else body res))
  /\ result (shown p net) = None
  /\ loading (shown p net) = false.
Proof.
  intros H Hnet Hok Hfalsy.
  rewrite (submit_backend_failure p net yl res H Hnet Hok), Hfalsy.
  cbn [error result loading]. repeat split.
  unfold orElse. destruct (body res); reflexivity.
Qed.

Lemma backend_failure_message_witness :
  error (shown mountedPage (backend serverError)) = Some "Backend error 500: boom"
  /\ result (shown mountedPage (backend serverError)) = None
  /\ loading (shown mountedPage (backend serverError)) = false.
Proof.
  apply (backend_failure_message mountedPage (backend serverError)
           (clamp100 (Number "25")) serverError); reflexivity.
Defined.

(** What the handler does when a yardline error was on display as the
    submission started: the test in the catch block reads the captured
    value, and the failure of the backend is not shown. *)
Remark earlier_field_error_hides_backend_failure
    (p : Page) (net : Network) (yl : jsnum) (res : Response) :
  yardlineOf (fields p) = Some yl ->
  net endpoint (payloadFor (fields p) yl) = Resolved res ->
  ok res = false ->
  falsy (yardlineError (status p)) = false ->
  error (shown p net) = None /\ yardlineError (shown p net) = None.
Proof.
  intros H Hnet Hok Hfalsy.
  rewrite (submit_backend_failure p net yl res H Hnet Hok), Hfalsy.
  now split.
Qed.

(* ===================================================================== *)
(** ** Possession in the payload *)

Lemma payloadFor_home_has_ball (f : Fields) (yl : jsnum) :
  prop2 "state" "home_has_ball" (payloadFor f yl)
  = Some (VNum (if homeHasBall f then num 1 else num 0)).
Proof. reflexivity. Qed.

(** C8, as stated, fails: the mounted page, submitted as it is, sends
    state.home_has_ball as the number 1. *)
Lemma possession_is_a_number_counterexample :
  ~ sendsBooleanPossession mountedPage offline.
Proof.
  intro H.
  destruct (H {| url := endpoint;
                 payload := payloadFor (fields mountedPage) (clamp100 (Number "25")) |})
    as (v & Hv & Hb).
  - rewrite (requests_readable mountedPage offline (clamp100 (Number "25")) eq_refl).
    left. reflexivity.
  - cbn [payload] in Hv. rewrite payloadFor_home_has_ball in Hv.
    injection Hv as <-. discriminate Hb.
Qed.

(** C8, amended. In every submitted payload, state.home_has_ball is the
    number 1 when the home team has the ball and the number 0 when it has
    not; it is never a boolean. *)
Theorem possession_is_sent_as_number (p : Page) (net : Network) (r : Request) :
  In r (requests p net) ->
  prop2 "state" "home_has_ball" (payload r)
    = Some (VNum (if homeHasBall (fields p) then num 1 else num 0))
  /\ forall v, prop2 "state" "home_has_ball" (payload r) = Some v ->
               isBoolean v = false.
Proof.
  intro Hr. destruct (requests_inv p net r Hr) as (yl & _ & ->).
  cbn [payload]. rewrite payloadFor_home_has_ball. split; [reflexivity|].
  now intros v [= <-].
Qed.

Lemma possession_is_sent_as_number_witness :
  prop2 "state" "home_has_ball"
    (payloadFor (fields mountedPage) (clamp100 (Number "25")))
  = Some (VNum (num 1)).
Proof.
  apply (possession_is_sent_as_number mountedPage offline
           {| url := endpoint;
              payload := payloadFor (fields mountedPage) (clamp100 (Number "25")) |}).
  rewrite (requests_readable mountedPage offline (clamp100 (Number "25")) eq_refl).
  left. reflexivity.
Defined.

(* ===================================================================== *)
(** ** Team codes derived from the slug *)

Lemma upperAt_Some (parts : list string) (i : nat) (dflt : string) :
  (i < List.length parts)%nat ->
  exists a, nth_error parts i = Some a /\ upperAt parts i dflt = toUpperCase a.
Proof.
  intro H. unfold upperAt.
  destruct (nth_error parts i) as [a|] eqn:E.
  - now exists a.
  - apply nth_error_None in E. lia.
Qed.

Lemma teamsAt_intro (slug : string) (i j : nat) :
  (i < List.length (split "-" slug))%nat ->
  (j < List.length (split "-" slug))%nat ->
  parseTeamsFromSlug slug
    = (upperAt (split "-" slug) i "TEAM1", upperAt (split "-" slug) j "TEAM2") ->
  teamsAt slug i j.
Proof.
  intros Hi Hj E.
  destruct (upperAt_Some _ i "TEAM1" Hi) as (a & Ha & Ea).
  destruct (upperAt_Some _ j "TEAM2" Hj) as (b & Hb & Eb).
  exists a, b. now rewrite E, Ea, Eb.
Qed.

(** The branches of [parseTeamsFromSlug]. *)
Lemma parseTeamsFromSlug_after_nfl (slug : string) (i : nat) :
  findIndex isNflToken (split "-" slug) = Some i ->
  (i + 3 <= List.length (split "-" slug))%nat ->
  parseTeamsFromSlug slug
    = (upperAt (split "-" slug) (i + 1) "TEAM1",
       upperAt (split "-" slug) (i + 2) "TEAM2").
Proof.
  intros Hi Hlen. unfold parseTeamsFromSlug.
  change (fun p : string => String.eqb (toLowerCase p) "nfl") with isNflToken.
  rewrite Hi. apply Nat.leb_le in Hlen. now rewrite Hlen.
Qed.

Lemma parseTeamsFromSlug_fallback (slug : string) :
  (forall i, findIndex isNflToken (split "-" slug) = Some i ->
             (List.length (split "-" slug) < i + 3)%nat) ->
  parseTeamsFromSlug slug
    = if (3 <=? List.length (split "-" slug))%nat
      then (upperAt (split "-" slug) 1 "TEAM1", upperAt (split "-" slug) 2 "TEAM2")
      else ("TEAM1", "TEAM2").
Proof.
  intro H. unfold parseTeamsFromSlug.
  change (fun p : string => String.eqb (toLowerCase p) "nfl") with isNflToken.
  destruct (findIndex isNflToken (split "-" slug)) as [i|]; [|reflexivity].
  specialize (H i eq_refl). apply Nat.leb_gt in H. now rewrite H.
Qed.

Lemma payload_state (f : Fields) (yl : jsnum) (k : string) :
  prop2 "state" k (payloadFor f yl) = assoc k (stateProps f yl).
Proof. reflexivity. Qed.

(** The state sent for the same form under other codes differs at most
    in the yardline. *)
Lemma stateProps_withCodes (f : Fields) (t1 t2 h a : string) (yl yl' : jsnum)
    (k : string) :
  k <> "yardline_100" ->
  assoc k (stateProps (withCodes f t1 t2 h a) yl') = assoc k (stateProps f yl).
Proof.
  intro Hk. unfold stateProps. cbn [assoc].
  repeat match goal with
         | |- context [String.eqb k ?s] =>
             destruct (String.eqb k s) eqn:?; [try reflexivity|]
         end;
    try reflexivity.
  exfalso. apply Hk. now apply String.eqb_eq.
Qed.

(** C9, as stated, fails.  In "a-b-nfl" the only "nfl" token has no token
    after it and the result is ("B", "NFL"); "ab" has no "nfl" token and
    no tokens 1 and 2, and the result is the placeholder pair.  And the
    codes are not only displayed: with "HOU 25" as the label, the codes
    of "nfl-buf-hou" send yardline 75 and the codes of "nfl-hou-buf",
    everything else the same, send yardline 25. *)
Lemma short_slug_counterexample :
  ~ derivationRule "a-b-nfl" /\ ~ derivationRule "ab"
  /\ parseTeamsFromSlug "a-b-nfl" = ("B", "NFL")
  /\ parseTeamsFromSlug "ab" = ("TEAM1", "TEAM2")
  /\ ~ codesOnlyDisplayed.
Proof.
  split; [|split; [|split; [reflexivity|split; [reflexivity|]]]].
  - intros [H _].
    destruct H as (i & (p & Hp & Hn) & (a & b & Ha & _)).
    { exists 2%nat, "nfl". now split. }
    destruct i as [|[|[|i]]].
    + injection Hp as <-. discriminate Hn.
    + injection Hp as <-. discriminate Hn.
    + discriminate Ha.
    + destruct i; discriminate Hp.
  - intros [_ H].
    destruct H as (a & b & Ha & _); [|discriminate Ha].
    intros (i & p & Hp & Hn). destruct i as [|i].
    + injection Hp as <-. discriminate Hn.
    + destruct i; discriminate Hp.
  - intro H.
    specialize (H (setYardlineLabel "HOU 25" (fields mountedPage))
                  "HOU" "BUF" "HOU" "BUF" initialStatus offline).
    rewrite (requests_readable
               {| fields := withCodes (setYardlineLabel "HOU 25" (fields mountedPage))
                                      "HOU" "BUF" "HOU" "BUF";
                  status := initialStatus |}
               offline (clamp100 (Number "25")) eq_refl) in H.
    rewrite (requests_readable
               {| fields := setYardlineLabel "HOU 25" (fields mountedPage);
                  status := initialStatus |}
               offline (clamp100 (num 100 - Number "25")%js) eq_refl) in H.
    apply (f_equal (fun l => match l with
                             | [r] => match prop2 "state" "yardline_100" (payload r) with
                                      | Some (VNum v) => JS.eqb v (num 25)
                                      | _ => false
                                      end
                             | _ => false
                             end)) in H.
    vm_compute in H. discriminate H.
Qed.

(** C9, amended. For every slug split on hyphens: when the first token
    that is "nfl" up to case is followed by at least two tokens, the
    derived codes are those two tokens uppercased; otherwise, when there
    are at least three tokens, they are the uppercased tokens 1 and 2.
    The codes are displayed and, as the home and away codes the slug
    effect sets, they are what the yardline label is read against: they
    decide state.yardline_100 and nothing else that is sent.  The payload
    holds no string but the slug and the side, and under other codes every
    part of it other than state.yardline_100 is the same. *)
Theorem team_code_derivation :
  (forall slug i,
      findIndex isNflToken (split "-" slug) = Some i ->
      (i + 3 <= List.length (split "-" slug))%nat ->
      teamsAt slug (i + 1) (i + 2))
  /\ (forall slug,
        (forall i, findIndex isNflToken (split "-" slug) = Some i ->
                   (List.length (split "-" slug) < i + 3)%nat) ->
        (3 <= List.length (split "-" slug))%nat ->
        teamsAt slug 1 2)
  /\ (forall f,
        homeTeam (slugEffect f) = fst (parseTeamsFromSlug (slug f))
        /\ awayTeam (slugEffect f) = snd (parseTeamsFromSlug (slug f)))
  /\ (forall p net r, In r (requests p net) ->
        exists yl,
          parseYardlineLabel (yardlineLabel (fields p)) (homeTeam (fields p))
                             (awayTeam (fields p)) = Some yl
          /\ prop2 "state" "yardline_100" (payload r) = Some (VNum yl))
  /\ (forall p net r, In r (requests p net) ->
        stringsOf (payload r) = [slug (fields p); sideTag (side (fields p))])
  /\ (forall f t1 t2 h a st net r r',
        In r (requests {| fields := f; status := st |} net) ->
        In r' (requests {| fields := withCodes f t1 t2 h a; status := st |} net) ->
        prop "slug" (payload r') = prop "slug" (payload r)
        /\ prop "side" (payload r') = prop "side" (payload r)
        /\ prop "fee_cost" (payload r') = prop "fee_cost" (payload r)
        /\ forall k, k <> "yardline_100" ->
                     prop2 "state" k (payload r') = prop2 "state" k (payload r)).
Proof.
  split; [|split; [|split; [|split; [|split]]]].
  - intros slug i Hi Hlen. apply teamsAt_intro; try lia.
    now apply parseTeamsFromSlug_after_nfl.
  - intros slug Hno Hlen. apply teamsAt_intro; try lia.
    rewrite (parseTeamsFromSlug_fallback slug Hno).
    apply Nat.leb_le in Hlen. now rewrite Hlen.
  - intro f. split; reflexivity.
  - intros p net r Hr. destruct (requests_inv p net r Hr) as (yl & E & ->).
    exists yl. split; [exact E|reflexivity].
  - intros p net r Hr. destruct (requests_inv p net r Hr) as (yl & _ & ->).
    reflexivity.
  - intros f t1 t2 h a st net r r' Hr Hr'.
    destruct (requests_inv _ net r Hr) as (yl & _ & ->).
    destruct (requests_inv _ net r' Hr') as (yl' & _ & ->).
    cbn [payload fields].
    split; [reflexivity|]. split; [reflexivity|]. split; [reflexivity|].
    intros k Hk. rewrite !payload_state. now apply stateProps_withCodes.
Qed.

Lemma team_code_derivation_witness :
  teamsAt "nfl-buf-hou-2025-11-20" 1 2 /\ teamsAt "buf-hou-2025" 1 2
  /\ prop2 "state" "down"
       (payloadFor (withCodes (fields mountedPage) "HOU" "BUF" "BUF" "HOU")
                   (clamp100 (Number "25")))
     = prop2 "state" "down" (payloadFor (fields mountedPage) (clamp100 (Number "25"))).
Proof.
  destruct team_code_derivation as (Hnfl & Hfallback & _ & _ & _ & Hsame).
  split; [|split].
  - apply (Hnfl "nfl-buf-hou-2025-11-20" 0%nat); [reflexivity|].
    vm_compute. lia.
  - apply (Hfallback "buf-hou-2025").
    + intros i Hi. discriminate Hi.
    + vm_compute. lia.
  - apply (Hsame (fields mountedPage) "HOU" "BUF" "BUF" "HOU" initialStatus offline
             {| url := endpoint;
                payload := payloadFor (fields mountedPage) (clamp100 (Number "25")) |}
             {| url := endpoint;
                payload := payloadFor (withCodes (fields mountedPage)
                                                 "HOU" "BUF" "BUF" "HOU")
                                      (clamp100 (Number "25")) |}).
    + rewrite (requests_readable
                 {| fields := fields mountedPage; status := initialStatus |}
                 offline (clamp100 (Number "25")) eq_refl).
      left. reflexivity.
    + rewrite (requests_readable
                 {| fields := withCodes (fields mountedPage) "HOU" "BUF" "BUF" "HOU";
                    status := initialStatus |}
                 offline (clamp100 (Number "25")) eq_refl).
      left. reflexivity.
    + discriminate.
Defined.

(** C10. [parseTeamsFromSlug] gives a pair for every slug, and for a slug
    with fewer than three hyphen-separated parts that pair is
    ("TEAM1", "TEAM2"). *)
Theorem short_slug_gives_placeholders (slug : string) :
  (exists t1 t2, parseTeamsFromSlug slug = (t1, t2))
  /\ ((List.length (split "-" slug) < 3)%nat ->
      parseTeamsFromSlug slug = ("TEAM1", "TEAM2")).
Proof.
  split.
  - destruct (parseTeamsFromSlug slug) as [t1 t2]. now exists t1, t2.
  - intro Hlen. rewrite parseTeamsFromSlug_fallback.
    + apply Nat.leb_gt in Hlen. now rewrite Hlen.
    + intros i _. lia.
Qed.

Lemma short_slug_gives_placeholders_witness :
  parseTeamsFromSlug "nfl-buf" = ("TEAM1", "TEAM2").
Proof.
  apply (proj2 (short_slug_gives_placeholders "nfl-buf")).
  vm_compute. lia.
Defined.

(* ===================================================================== *)
(** ** Every outcome of a submission *)

Lemma submit_rejected (p : Page) (net : Network) (yl : jsnum) (m : string) :
  yardlineOf (fields p) = Some yl ->
  net endpoint (payloadFor (fields p) yl) = Rejected m ->
  shown p net =
    {| loading := false;
       error := if falsy (yardlineError (status p))
                then Some (orElse m "Unknown error") else None;
       result := None;
       yardlineError := None |}.
Proof.
  unfold yardlineOf. intros H Hnet. run_handler. rewrite H.
  fold (quarterOf (fields p)) (downOf (fields p)) (ydstogoOf (fields p)) (feeOf (fields p)).
  fold (payloadFor (fields p) yl). rewrite Hnet.
  destruct (falsy _); reflexivity.
Qed.

Lemma submit_unparsed_body (p : Page) (net : Network) (yl : jsnum)
    (res : Response) (m : string) :
  yardlineOf (fields p) = Some yl ->
  net endpoint (payloadFor (fields p) yl) = Resolved res ->
  ok res = true -> json res = inl m ->
  shown p net =
    {| loading := false;
       error := if falsy (yardlineError (status p))
                then Some (orElse m "Unknown error") else None;
       result := None;
       yardlineError := None |}.
Proof.
  unfold yardlineOf. intros H Hnet Hok Hjson. run_handler. rewrite H.
  fold (quarterOf (fields p)) (downOf (fields p)) (ydstogoOf (fields p)) (feeOf (fields p)).
  fold (payloadFor (fields p) yl). rewrite Hnet, Hok, Hjson. cbn [negb].
  destruct (falsy _); reflexivity.
Qed.

Lemma submit_success (p : Page) (net : Network) (yl : jsnum)
    (res : Response) (d : EVResponse) :
  yardlineOf (fields p) = Some yl ->
  net endpoint (payloadFor (fields p) yl) = Resolved res ->
  ok res = true -> json res = inr d ->
  shown p net =
    {| loading := false; error := None; result := Some d; yardlineError := None |}.
Proof.
  unfold yardlineOf. intros H Hnet Hok Hjson. run_handler. rewrite H.
  fold (quarterOf (fields p)) (downOf (fields p)) (ydstogoOf (fields p)) (feeOf (fields p)).
  fold (payloadFor (fields p) yl). rewrite Hnet, Hok, Hjson. reflexivity.
Qed.

Lemma outcome_cases (p : Page) (net : Network) : Outcome p net.
Proof.
  destruct (yardlineOf (fields p)) as [yl|] eqn:E; [|now apply Unreadable].
  destruct (net endpoint (payloadFor (fields p) yl)) as [m|res] eqn:En.
  - now apply (NoAnswer p net yl m).
  - destruct (ok res) eqn:Eok.
    + destruct (json res) as [m|d] eqn:Ej.
      * now apply (Garbled p net yl res m).
      * now apply (Answered p net yl res d).
    + now apply (Refused p net yl res).
Qed.

(** X1. Whatever the page holds and whatever the network does, a
    submission ends with the loading flag cleared, has issued at most one
    request, and that request went to the fixed endpoint. *)
Theorem submission_settles (p : Page) (net : Network) :
  loading (shown p net) = false
  /\ (List.length (requests p net) <= 1)%nat
  /\ (forall r, In r (requests p net) -> url r = endpoint).
Proof.
  split; [|split].
  - destruct (outcome_cases p net) as [E|yl m E En|yl res E En Eok
                                       |yl res m E En Eok Ej|yl res d E En Eok Ej].
    + unfold shown. now rewrite (submit_unreadable p net E).
    + now rewrite (submit_rejected p net yl m E En).
    + now rewrite (submit_backend_failure p net yl res E En Eok).
    + now rewrite (submit_unparsed_body p net yl res m E En Eok Ej).
    + now rewrite (submit_success p net yl res d E En Eok Ej).
  - destruct (yardlineOf (fields p)) as [yl|] eqn:E.
    + rewrite (requests_readable p net yl E). simpl. lia.
    + unfold requests. rewrite (submit_unreadable p net E). simpl. lia.
  - intros r Hr. now destruct (requests_inv p net r Hr) as (yl & _ & ->).
Qed.

(** X2. When the backend answers in the 200-299 range and [res.json()]
    reads the body as EV data (an object), the page shows that data as the
    result and no error of either kind. *)
Theorem answered_submission_shows_result
    (p : Page) (net : Network) (yl : jsnum) (res : Response) (d : EVResponse) :
  yardlineOf (fields p) = Some yl ->
  net endpoint (payloadFor (fields p) yl) = Resolved res ->
  ok res = true ->
  json res = inr d ->
  result (shown p net) = Some d
  /\ error (shown p net) = None
  /\ yardlineError (shown p net) = None.
Proof.
  intros E En Eok Ej. rewrite (submit_success p net yl res d E En Eok Ej).
  repeat split.
Qed.

Lemma answered_submission_shows_result_witness :
  result (shown mountedPage (backend (okResponse sampleEV))) = Some sampleEV
  /\ error (shown mountedPage (backend (okResponse sampleEV))) = None
  /\ yardlineError (shown mountedPage (backend (okResponse sampleEV))) = None.
Proof.
  apply (answered_submission_shows_result mountedPage (backend (okResponse sampleEV))
           (clamp100 (Number "25")) (okResponse sampleEV) sampleEV); reflexivity.
Defined.

(** X3. A result on display after a submission comes from a response in
    the 200-299 range whose body parsed to it, and is never accompanied by
    a page-level error or a yardline error. *)
Theorem shown_result_comes_from_backend
    (p : Page) (net : Network) (d : EVResponse) :
  result (shown p net) = Some d ->
  error (shown p net) = None
  /\ yardlineError (shown p net) = None
  /\ exists yl res,
       yardlineOf (fields p) = Some yl
       /\ net endpoint (payloadFor (fields p) yl) = Resolved res
       /\ ok res = true
       /\ json res = inr d.
Proof.
  destruct (outcome_cases p net) as [E|yl m E En|yl res E En Eok
                                     |yl res m E En Eok Ej|yl res d' E En Eok Ej].
  - unfold shown. rewrite (submit_unreadable p net E). discriminate.
  - rewrite (submit_rejected p net yl m E En). discriminate.
  - rewrite (submit_backend_failure p net yl res E En Eok). discriminate.
  - rewrite (submit_unparsed_body p net yl res m E En Eok Ej). discriminate.
  - rewrite (submit_success p net yl res d' E En Eok Ej). intros [= <-].
    repeat split. now exists yl, res.
Qed.

Lemma shown_result_comes_from_backend_witness :
  error (shown mountedPage (backend (okResponse sampleEV))) = None
  /\ yardlineError (shown mountedPage (backend (okResponse sampleEV))) = None
  /\ exists yl res,
       yardlineOf (fields mountedPage) = Some yl
       /\ backend (okResponse sampleEV) endpoint (payloadFor (fields mountedPage) yl)
          = Resolved res
       /\ ok res = true
       /\ json res = inr sampleEV.
Proof.
  apply (shown_result_comes_from_backend mountedPage (backend (okResponse sampleEV))
           sampleEV).
  reflexivity.
Defined.

(** X4. When the request gets no response at all, or a response in the
    200-299 range whose body does not parse, and no yardline error was on
    display as the submission started, the page-level error is the message
    of the failure, or "Unknown error" when that message is empty; one
    request was issued and no result is shown. *)
Theorem failure_message_is_shown (p : Page) (net : Network) (yl : jsnum) (m : string) :
  yardlineOf (fields p) = Some yl ->
  (net endpoint (payloadFor (fields p) yl) = Rejected m
   \/ exists res, net endpoint (payloadFor (fields p) yl) = Resolved res
                  /\ ok res = true /\ json res = inl m) ->
  falsy (yardlineError (status p)) = true ->
  error (shown p net)
    = Some (if String.eqb m EmptyString then "Unknown error" else m)
  /\ result (shown p net) = None
  /\ List.length (requests p net) = 1%nat.
Proof.
  intros E Hnet Hfalsy.
  assert (Hshown : shown p net =
            {| loading := false; error := Some (orElse m "Unknown error");
               result := None; yardlineError := None |}).
  { destruct Hnet as [En|(res & En & Eok & Ej)].
    - now rewrite (submit_rejected p net yl m E En), Hfalsy.
    - now rewrite (submit_unparsed_body p net yl res m E En Eok Ej), Hfalsy. }
  rewrite Hshown, (requests_readable p net yl E). repeat split.
  cbn [error]. unfold orElse. destruct m; reflexivity.
Qed.

Lemma failure_message_is_shown_witness :
  error (shown mountedPage offline) = Some "Failed to fetch"
  /\ result (shown mountedPage offline) = None
  /\ List.length (requests mountedPage offline) = 1%nat.
Proof.
  apply (failure_message_is_shown mountedPage offline
           (clamp100 (Number "25")) "Failed to fetch").
  - reflexivity.
  - left. reflexivity.
  - reflexivity.
Defined.

(** X5. A label that does not parse raises the field error and, when no
    field error was on display as the submission started, also the
    page-level error "Invalid yardline format"; when one was on display,
    the page-level error stays empty. *)
Theorem unreadable_yardline_page_error (p : Page) (net : Network) :
  yardlineOf (fields p) = None ->
  error (shown p net)
    = (if falsy (yardlineError (status p))
       then Some "Invalid yardline format" else None)
  /\ yardlineError (shown p net)
     = Some (yardlineMessage (homeTeam (fields p)) (awayTeam (fields p))).
Proof.
  intro E. unfold shown. rewrite (submit_unreadable p net E). now split.
Qed.

Lemma unreadable_yardline_page_error_witness :
  error (shown {| fields := setYardlineLabel "50" (fields mountedPage);
                  status := initialStatus |} offline)
    = Some "Invalid yardline format"
  /\ yardlineError (shown {| fields := setYardlineLabel "50" (fields mountedPage);
                            status := initialStatus |} offline)
     = Some (yardlineMessage "BUF" "HOU").
Proof.
  apply (unreadable_yardline_page_error
           {| fields := setYardlineLabel "50" (fields mountedPage);
              status := initialStatus |} offline).
  reflexivity.
Defined.

(** X6. When a yardline error was on display as the submission started,
    no page-level error is shown whatever happens; if the label now parses
    and the submission fails, the page shows nothing at all: no result, no
    page-level error, no yardline error. *)
Theorem earlier_field_error_silences_failures (p : Page) (net : Network) :
  falsy (yardlineError (status p)) = false ->
  error (shown p net) = None
  /\ (yardlineOf (fields p) <> None ->
      result (shown p net) = None ->
      shown p net = {| loading := false; error := None;
                       result := None; yardlineError := None |}).
Proof.
  intro Hfalsy.
  destruct (outcome_cases p net) as [E|yl m E En|yl res E En Eok
                                     |yl res m E En Eok Ej|yl res d E En Eok Ej].
  - unfold shown. rewrite (submit_unreadable p net E), Hfalsy.
    split; [reflexivity|]. intro H. now elim H.
  - rewrite (submit_rejected p net yl m E En), Hfalsy. now split.
  - rewrite (submit_backend_failure p net yl res E En Eok), Hfalsy. now split.
  - rewrite (submit_unparsed_body p net yl res m E En Eok Ej), Hfalsy. now split.
  - rewrite (submit_success p net yl res d E En Eok Ej).
    split; [reflexivity|]. intros _ H. discriminate H.
Qed.

Lemma earlier_field_error_silences_failures_witness :
  error (shown (afterFieldError (fields mountedPage)) (backend serverError)) = None
  /\ (yardlineOf (fields (afterFieldError (fields mountedPage))) <> None ->
      result (shown (afterFieldError (fields mountedPage)) (backend serverError)) = None ->
      shown (afterFieldError (fields mountedPage)) (backend serverError)
      = {| loading := false; error := None; result := None; yardlineError := None |}).
Proof.
  apply (earlier_field_error_silences_failures
           (afterFieldError (fields mountedPage)) (backend serverError)).
  reflexivity.
Defined.

(* ===================================================================== *)
(** ** What the payload carries *)

Lemma le_not_NaN_r (x y : jsnum) : (x <= y)%js -> y <> NaN.
Proof. intros H ->. destruct x as [|[]|]; discriminate H. Qed.

Lemma le_not_NaN_l (x y : jsnum) : (x <= y)%js -> x <> NaN.
Proof. intros H ->. discriminate H. Qed.

Lemma clamp_not_NaN (v : field) (d : Z) :
  JS.Math_min (num 4) (JS.Math_max (num 1) (parseOrDefault v (num d))) <> NaN.
Proof.
  apply (le_not_NaN_r (num 1)).
  apply (clamp_range 1 4); [lia|].
  apply parseOrDefault_not_NaN, num_not_NaN.
Qed.

(** X7. The yardline_100 of every submitted payload is the value
    [parseYardlineLabel] gave for the label of the form, and it lies
    between 0 and 100. *)
Theorem payload_yardline_in_range (p : Page) (net : Network) (r : Request) :
  In r (requests p net) ->
  exists v, prop2 "state" "yardline_100" (payload r) = Some (VNum v)
            /\ parseYardlineLabel (yardlineLabel (fields p)) (homeTeam (fields p))
                                  (awayTeam (fields p)) = Some v
            /\ (num 0 <= v <= num 100)%js.
Proof.
  intro Hr. destruct (requests_inv p net r Hr) as (yl & E & ->).
  exists yl. split; [reflexivity|]. split; [exact E|].
  destruct (parseYardlineLabel_Some _ _ _ _ E)
    as (t & y & (n & _ & _ & Hy) & [[_ ->]|(_ & _ & ->)]).
  - now apply clamp100_range.
  - now apply clamp100_range, sub_not_NaN.
Qed.

Lemma payload_yardline_in_range_witness :
  exists v, prop2 "state" "yardline_100"
              (payloadFor (fields mountedPage) (clamp100 (Number "25")))
            = Some (VNum v)
            /\ parseYardlineLabel "BUF 25" "BUF" "HOU" = Some v
            /\ (num 0 <= v <= num 100)%js.
Proof.
  apply (payload_yardline_in_range mountedPage offline
           {| url := endpoint;
              payload := payloadFor (fields mountedPage) (clamp100 (Number "25")) |}).
  rewrite (requests_readable mountedPage offline (clamp100 (Number "25")) eq_refl).
  left. reflexivity.
Defined.

(** X8. In every submitted payload the quarter, the down, the yards to
    go, the fee, both scores and the yardline are numbers other than NaN,
    and score_diff_home is the home score of the payload minus its away
    score. *)
Theorem payload_fields_are_not_NaN (p : Page) (net : Network) (r : Request) :
  In r (requests p net) ->
  exists q d ytg fee hs aws yl,
    prop2 "state" "quarter" (payload r) = Some (VNum q)
    /\ prop2 "state" "down" (payload r) = Some (VNum d)
    /\ prop2 "state" "ydstogo" (payload r) = Some (VNum ytg)
    /\ prop "fee_cost" (payload r) = Some (VNum fee)
    /\ prop2 "state" "home_score" (payload r) = Some (VNum hs)
    /\ prop2 "state" "away_score" (payload r) = Some (VNum aws)
    /\ prop2 "state" "yardline_100" (payload r) = Some (VNum yl)
    /\ prop2 "state" "score_diff_home" (payload r) = Some (VNum (hs - aws)%js)
    /\ q <> NaN /\ d <> NaN /\ ytg <> NaN /\ fee <> NaN
    /\ hs <> NaN /\ aws <> NaN /\ yl <> NaN.
Proof.
  intro Hr. destruct (requests_inv p net r Hr) as (yl & E & ->).
  exists (quarterOf (fields p)), (downOf (fields p)), (ydstogoOf (fields p)),
         (feeOf (fields p)), (parseOrDefault (homeScore (fields p)) (num 0)),
         (parseOrDefault (awayScore (fields p)) (num 0)), yl.
  repeat (split; [reflexivity|]).
  repeat split.
  - apply clamp_not_NaN.
  - apply clamp_not_NaN.
  - apply (le_not_NaN_r (num 1)), max_lower, parseOrDefault_not_NaN, num_not_NaN.
  - apply (le_not_NaN_r (num 0)), max_lower, parseOrDefault_not_NaN, num_not_NaN.
  - apply parseOrDefault_not_NaN, num_not_NaN.
  - apply parseOrDefault_not_NaN, num_not_NaN.
  - destruct (parseYardlineLabel_Some _ _ _ _ E)
      as (t & y & (n & _ & _ & Hy) & [[_ ->]|(_ & _ & ->)]).
    + apply (le_not_NaN_r (num 0)). now apply clamp100_range.
    + apply (le_not_NaN_r (num 0)). now apply clamp100_range, sub_not_NaN.
Qed.

Lemma payload_fields_are_not_NaN_witness :
  exists q d ytg fee hs aws yl,
    prop2 "state" "quarter" (payloadFor (fields mountedPage) (clamp100 (Number "25")))
      = Some (VNum q)
    /\ prop2 "state" "down" (payloadFor (fields mountedPage) (clamp100 (Number "25")))
       = Some (VNum d)
    /\ prop2 "state" "ydstogo" (payloadFor (fields mountedPage) (clamp100 (Number "25")))
       = Some (VNum ytg)
    /\ prop "fee_cost" (payloadFor (fields mountedPage) (clamp100 (Number "25")))
       = Some (VNum fee)
    /\ prop2 "state" "home_score" (payloadFor (fields mountedPage) (clamp100 (Number "25")))
       = Some (VNum hs)
    /\ prop2 "state" "away_score" (payloadFor (fields mountedPage) (clamp100 (Number "25")))
       = Some (VNum aws)
    /\ prop2 "state" "yardline_100" (payloadFor (fields mountedPage) (clamp100 (Number "25")))
       = Some (VNum yl)
    /\ prop2 "state" "score_diff_home"
         (payloadFor (fields mountedPage) (clamp100 (Number "25")))
       = Some (VNum (hs - aws)%js)
    /\ q <> NaN /\ d <> NaN /\ ytg <> NaN /\ fee <> NaN
    /\ hs <> NaN /\ aws <> NaN /\ yl <> NaN.
Proof.
  apply (payload_fields_are_not_NaN mountedPage offline
           {| url := endpoint;
              payload := payloadFor (fields mountedPage) (clamp100 (Number "25")) |}).
  rewrite (requests_readable mountedPage offline (clamp100 (Number "25")) eq_refl).
  left. reflexivity.
Defined.

(* ===================================================================== *)
(** ** The clock across quarters *)

(** Equations and inequalities between finite values, through [Q]. *)
Ltac qc_solve :=
  try apply Qc_is_canon;
  unfold Qcle, Qclt, Qcplus, Qcmult, Qcopp, Q2Qc in *; cbn [this] in *;
  rewrite ?Qred_correct in *; unfold inject_Z in *; lra.

(** Either the clock is not read and the result is 0 in every quarter, or
    the result is its reading plus the full quarters left. *)
Lemma computeSecondsRemaining_shape (clock : string) :
  (clockSeconds clock = num 0
   /\ forall q, computeSecondsRemaining q clock = num 0)
  \/ (forall q, computeSecondsRemaining q clock
                = (clockSeconds clock
                   + JS.Math_max (num 0) (num 4 - q) * num 15 * num 60)%js).
Proof.
  unfold computeSecondsRemaining, clockSeconds.
  destruct (split ":" clock) as [|a [|b [|c r]]]; auto.
  destruct (JS.isNaN (Number a) || JS.isNaN (Number b)); auto.
Qed.

Lemma full_quarters_Fin (a : Qc) :
  exists r,
    (JS.Math_max (num 0) (num 4 - Fin a) * num 15 * num 60)%js = Fin r
    /\ ((a <= Q2Qc (inject_Z 4))%Qc ->
        r = ((Q2Qc (inject_Z 4) - a) * Q2Qc (inject_Z 900))%Qc)
    /\ ((Q2Qc (inject_Z 4) <= a)%Qc -> r = Q2Qc (inject_Z 0)).
Proof.
  unfold num, JS.ofZ, JS.sub, JS.neg, JS.add, JS.Math_max.
  destruct (JS.leb _ _) eqn:E.
  - eexists. split; [reflexivity|]. apply le_Fin in E.
    split; intro H; unfold Qcminus; qc_solve.
  - eexists. split; [reflexivity|]. apply leb_Fin_false in E.
    split; intro H; unfold Qcminus; qc_solve.
Qed.

Lemma add_zero_r (x : jsnum) : (x + Fin (Q2Qc (inject_Z 0)))%js = x.
Proof.
  destruct x as [|s|c]; try reflexivity.
  cbn [JS.add]. f_equal. qc_solve.
Qed.

(** X9. From quarter 4 on (overtime numbers and +Infinity included) no
    full quarter is added: the result is the time the clock string is read
    as, whatever the clock. *)
Theorem no_full_quarter_from_quarter_four (q : jsnum) (clock : string) :
  (num 4 <= q)%js ->
  computeSecondsRemaining q clock = clockSeconds clock.
Proof.
  intro Hq.
  destruct (computeSecondsRemaining_shape clock) as [[E0 E]|E]; rewrite E;
    [now rewrite E0|].
  assert (Hfull : (JS.Math_max (num 0) (num 4 - q) * num 15 * num 60)%js
                  = Fin (Q2Qc (inject_Z 0))).
  { destruct q as [|s|a].
    - discriminate Hq.
    - destruct s; [discriminate Hq|].
      cbn. f_equal; apply Qc_is_canon; reflexivity.
    - destruct (full_quarters_Fin a) as (r & -> & _ & Hr).
      f_equal. apply Hr. now apply le_Fin. }
  rewrite Hfull. apply add_zero_r.
Qed.

Lemma no_full_quarter_from_quarter_four_witness :
  computeSecondsRemaining (num 5) "10:00" = clockSeconds "10:00".
Proof.
  apply (no_full_quarter_from_quarter_four (num 5) "10:00"). reflexivity.
Defined.



(* ===================================================================== *)
(** ** Yardline labels under a change of sides *)

Lemma clamp100_cases (a : Qc) :
  ((a <= Q2Qc (inject_Z 0))%Qc /\ clamp100 (Fin a) = num 0)
  \/ ((Q2Qc (inject_Z 0) <= a)%Qc /\ (a <= Q2Qc (inject_Z 100))%Qc
      /\ clamp100 (Fin a) = Fin a)
  \/ ((Q2Qc (inject_Z 100) <= a)%Qc /\ clamp100 (Fin a) = num 100).
Proof.
  unfold clamp100, num, JS.ofZ, JS.Math_max.
  destruct (JS.leb _ (Fin a)) eqn:E0.
  - apply le_Fin in E0. unfold JS.Math_min.
    destruct (JS.leb _ (Fin a)) eqn:E1.
    + apply le_Fin in E1. right. right. now split.
    + apply leb_Fin_false in E1. right. left.
      repeat split; auto using Qclt_le_weak.
  - apply leb_Fin_false in E0. left. split; [now apply Qclt_le_weak|].
    reflexivity.
Qed.

(** Clamping commutes with the reflection of the field, y to 100 - y. *)
Lemma clamp100_mirror (y : jsnum) :
  y <> NaN -> clamp100 (num 100 - y)%js = (num 100 - clamp100 y)%js.
Proof.
  intro Hy. destruct y as [|s|a]; [congruence| |].
  - destruct s; js_eval.
  - change (num 100 - Fin a)%js with (Fin (Q2Qc (inject_Z 100) + - a)%Qc).
    destruct (clamp100_cases a) as [[Ha ->]|[(Ha0 & Ha1 & ->)|[Ha ->]]];
      destruct (clamp100_cases (Q2Qc (inject_Z 100) + - a)%Qc)
        as [[Hb ->]|[(Hb0 & Hb1 & ->)|[Hb ->]]];
      unfold num, JS.ofZ, JS.sub; cbn [JS.neg JS.add]; f_equal;
      clear Hy; qc_solve.
Qed.

(** A label is refused exactly when its team part matches neither code. *)
Lemma parseYardlineLabel_None (label home away : string) :
  parseYardlineLabel label home away = None
  <-> forall t y, LabelOf label t y -> ~ sameCode t home /\ ~ sameCode t away.
Proof.
  unfold sameCode. split.
  - intros E t y HL. rewrite (parseYardlineLabel_LabelOf label home away t y HL) in E.
    destruct (String.eqb_spec (toUpperCase t) (toUpperCase home)); [discriminate E|].
    destruct (String.eqb_spec (toUpperCase t) (toUpperCase away)); [discriminate E|].
    now split.
  - intro H. destruct (parseYardlineLabel label home away) as [v|] eqn:E;
      [|reflexivity].
    destruct (parseYardlineLabel_Some _ _ _ _ E) as (t & y & HL & Hbranch).
    destruct (H t y HL) as [Hh Ha]. unfold sameCode in Hbranch.
    destruct Hbranch as [[Hh' _]|(_ & Ha' & _)]; contradiction.
Qed.

(** X11. Exchanging the home and the away code: the label is refused
    after the exchange exactly when it was refused before; and for codes
    that differ (up to case), a label whose team part is the home code
    reads, after the exchange, as 100 minus what it read before. *)
Theorem exchanging_sides_mirrors_yardline (label home away : string) :
  ~ sameCode home away ->
  (parseYardlineLabel label away home = None
   <-> parseYardlineLabel label home away = None)
  /\ (forall t y, LabelOf label t y -> sameCode t home ->
        parseYardlineLabel label away home
        = option_map (fun v => (num 100 - v)%js)
                     (parseYardlineLabel label home away)).
Proof.
  intro Hdiff. split.
  - rewrite !parseYardlineLabel_None.
    split; intros H t y HL; destruct (H t y HL); now split.
  - unfold sameCode in *. intros t y HL Hh.
    rewrite (parseYardlineLabel_LabelOf label away home t y HL),
            (parseYardlineLabel_LabelOf label home away t y HL).
    destruct HL as (n & _ & _ & Hy).
    assert (Ha : toUpperCase t <> toUpperCase away) by congruence.
    apply String.eqb_neq in Ha. apply String.eqb_eq in Hh.
    rewrite Ha, Hh. cbn [option_map]. f_equal. now apply clamp100_mirror.
Qed.

Lemma exchanging_sides_mirrors_yardline_witness :
  parseYardlineLabel "HOU 36" "BUF" "HOU"
  = option_map (fun v => (num 100 - v)%js) (parseYardlineLabel "HOU 36" "HOU" "BUF").
Proof.
  apply (proj2 (exchanging_sides_mirrors_yardline "HOU 36" "HOU" "BUF"
                  ltac:(unfold sameCode; discriminate))
           "HOU" (num 36)).
  - exists "36". split; [reflexivity|]. split; [js_eval|js_differ].
  - reflexivity.
Defined.

(* ===================================================================== *)
(** ** The default label *)

Lemma append_not_empty (t u : string) : u <> EmptyString -> t ++ u <> EmptyString.
Proof. destruct t; [auto|discriminate]. Qed.

Lemma trimEnd_default (t : string) : trimEnd (t ++ " 25") = t ++ " 25".
Proof.
  induction t as [|c r IH]; [reflexivity|].
  cbn [append trimEnd]. rewrite IH.
  destruct (r ++ " 25") eqn:E; [|reflexivity].
  exfalso. revert E. apply append_not_empty. discriminate.
Qed.

Lemma trim_default (t : string) :
  plainCode t -> trim (t ++ " 25") = t ++ " 25".
Proof.
  intros [Hne Hsp]. unfold trim.
  destruct t as [|c r]; [congruence|].
  cbn [anyChar] in Hsp. apply Bool.orb_false_elim in Hsp as [Hc _].
  cbn [append trimStart]. rewrite Hc.
  exact (trimEnd_default (String c r)).
Qed.

Lemma splitSpaces_default (t : string) :
  anyChar isSpace t = false -> splitSpaces (t ++ " 25") = [t; "25"].
Proof.
  unfold splitSpaces. induction t as [|c r IH]; [reflexivity|].
  cbn [anyChar]. intro H. apply Bool.orb_false_elim in H as [Hc Hr].
  cbn [append splitSpacesFrom]. rewrite Hc, (IH Hr). reflexivity.
Qed.

Lemma default_label_parses (home away : string) :
  plainCode home -> parseYardlineLabel (home ++ " 25") home away = Some (num 25).
Proof.
  intro Hp. unfold parseYardlineLabel.
  rewrite (trim_default home Hp), (splitSpaces_default home (proj2 Hp)).
  destruct (home ++ " 25") eqn:E.
  - exfalso. revert E. apply append_not_empty. discriminate.
  - cbn [truthy negb].
    assert (Hy : Number "25" = num 25) by js_eval.
    rewrite Hy. cbn [JS.isNaN num JS.ofZ]. rewrite String.eqb_refl.
    apply option_jsnum_eq. js_eval.
Qed.

(** X12. After the slug effect, and after either of the two home/away
    buttons, the label the handler writes parses to yardline 25 as soon as
    the code it made the home code is not empty and has no white space;
    a submission is then not blocked by the yardline. *)
Theorem default_label_is_readable (f : Fields) :
  (plainCode (fst (parseTeamsFromSlug (slug f))) ->
   yardlineOf (slugEffect f) = Some (num 25))
  /\ (plainCode (team1 f) -> yardlineOf (chooseTeam1Home f) = Some (num 25))
  /\ (plainCode (team2 f) -> yardlineOf (chooseTeam2Home f) = Some (num 25)).
Proof.
  repeat split; intro Hp; unfold yardlineOf; cbn [slugEffect chooseTeam1Home chooseTeam2Home
    yardlineLabel homeTeam awayTeam]; now apply default_label_parses.
Qed.

Lemma default_label_is_readable_witness :
  yardlineOf (slugEffect (setSlug "nfl-kc-den-2025-12-25" initialFields)) = Some (num 25)
  /\ yardlineOf (chooseTeam2Home (fields mountedPage)) = Some (num 25).
Proof.
  split.
  - apply (proj1 (default_label_is_readable
                    (setSlug "nfl-kc-den-2025-12-25" initialFields))).
    split; [discriminate|reflexivity].
  - apply (proj2 (proj2 (default_label_is_readable (fields mountedPage)))).
    split; [discriminate|reflexivity].
Defined.

(** X13. When the first code derived from the slug is empty (two hyphens
    in a row after "nfl", for instance), the label the slug effect writes
    does not parse, and a submission of the page as the effect left it
    issues no request. *)
Theorem empty_code_blocks_submission (f : Fields) (st : Status) (net : Network) :
  fst (parseTeamsFromSlug (slug f)) = EmptyString ->
  yardlineOf (slugEffect f) = None
  /\ requests {| fields := slugEffect f; status := st |} net = [].
Proof.
  intro H.
  assert (E : yardlineOf (slugEffect f) = None).
  { unfold yardlineOf. cbn [slugEffect yardlineLabel homeTeam awayTeam].
    rewrite H. reflexivity. }
  split; [exact E|].
  unfold requests.
  now rewrite (submit_unreadable {| fields := slugEffect f; status := st |} net E).
Qed.

Lemma empty_code_blocks_submission_witness :
  yardlineOf (slugEffect (setSlug "nfl--hou-2025-11-20" initialFields)) = None
  /\ requests {| fields := slugEffect (setSlug "nfl--hou-2025-11-20" initialFields);
                 status := initialStatus |} offline = [].
Proof.
  apply (empty_code_blocks_submission
           (setSlug "nfl--hou-2025-11-20" initialFields) initialStatus offline).
  reflexivity.
Defined.

(* ===================================================================== *)
(** ** More on the codes derived from a slug *)

Ltac each_char c := destruct c as [[] [] [] [] [] [] [] []]; reflexivity.

Lemma upperChar_idem (c : ascii) : upperChar (upperChar c) = upperChar c.
Proof. each_char c. Qed.

Lemma upperChar_lowerChar (c : ascii) : upperChar (lowerChar c) = upperChar c.
Proof. each_char c. Qed.

Lemma lowerChar_upperChar (c : ascii) : lowerChar (upperChar c) = lowerChar c.
Proof. each_char c. Qed.

Lemma lowerChar_idem (c : ascii) : lowerChar (lowerChar c) = lowerChar c.
Proof. each_char c. Qed.

Lemma isHyphen_upperChar (c : ascii) : isHyphen (upperChar c) = isHyphen c.
Proof. each_char c. Qed.

Lemma isHyphen_lowerChar (c : ascii) : isHyphen (lowerChar c) = isHyphen c.
Proof. each_char c. Qed.

Lemma mapString_compose (f g h : ascii -> ascii) (s : string) :
  (forall c, f (g c) = h c) -> mapString f (mapString g s) = mapString h s.
Proof.
  intro H. induction s as [|c r IH]; [reflexivity|].
  cbn [mapString]. now rewrite H, IH.
Qed.

Lemma anyChar_mapString (p : ascii -> bool) (f : ascii -> ascii) (s : string) :
  (forall c, p (f c) = p c) -> anyChar p (mapString f s) = anyChar p s.
Proof.
  intro H. induction s as [|c r IH]; [reflexivity|].
  cbn [mapString anyChar]. now rewrite H, IH.
Qed.

(** Splitting, on strings put together with the separator. *)
Lemma split_plain (a : string) :
  anyChar isHyphen a = false -> split "-" a = [a].
Proof.
  induction a as [|c r IH]; [reflexivity|].
  cbn [anyChar]. intro H. apply Bool.orb_false_elim in H as [Hc Hr].
  cbn [split]. unfold isHyphen in Hc. now rewrite Hc, (IH Hr).
Qed.

Lemma split_app (a r : string) :
  anyChar isHyphen a = false ->
  split "-" (a ++ String "-" r) = a :: split "-" r.
Proof.
  induction a as [|c a' IH]; [reflexivity|].
  cbn [anyChar]. intro H. apply Bool.orb_false_elim in H as [Hc Hr].
  cbn [append split]. unfold isHyphen in Hc. now rewrite Hc, (IH Hr).
Qed.

Lemma split_parts_plain (s : string) :
  Forall (fun p => anyChar isHyphen p = false) (split "-" s).
Proof.
  induction s as [|c r IH]; [repeat constructor|].
  cbn [split]. destruct (Ascii.eqb c "-") eqn:Ec.
  - constructor; [reflexivity|exact IH].
  - destruct (split "-" r) as [|p ps].
    + repeat constructor. cbn [anyChar]. unfold isHyphen. now rewrite Ec.
    + inversion IH as [|? ? Hp Hps]; subst. constructor; [|exact Hps].
      cbn [anyChar]. unfold isHyphen at 1. now rewrite Ec.
Qed.

Lemma split_mapString (f : ascii -> ascii) (s : string) :
  (forall c, isHyphen (f c) = isHyphen c) ->
  split "-" (mapString f s) = map (mapString f) (split "-" s).
Proof.
  intro H. induction s as [|c r IH]; [reflexivity|].
  cbn [mapString split]. fold (isHyphen (f c)) (isHyphen c).
  rewrite H, IH. destruct (isHyphen c); [reflexivity|].
  destruct (split "-" r); reflexivity.
Qed.

Lemma findIndex_map {A} (p : A -> bool) (g : A -> A) (l : list A) :
  (forall x, p (g x) = p x) -> findIndex p (map g l) = findIndex p l.
Proof.
  intro H. induction l as [|x r IH]; [reflexivity|].
  cbn [map findIndex]. now rewrite H, IH.
Qed.

Lemma upperAt_map (f : ascii -> ascii) (parts : list string) (i : nat) (d : string) :
  (forall c, upperChar (f c) = upperChar c) ->
  upperAt (map (mapString f) parts) i d = upperAt parts i d.
Proof.
  intro H. unfold upperAt. rewrite nth_error_map.
  destruct (nth_error parts i) as [p|]; [|reflexivity].
  cbn [option_map]. unfold toUpperCase. now apply mapString_compose.
Qed.

(** The derivation only looks at the slug up to a change of case by [f]. *)
Lemma parseTeamsFromSlug_mapString (f : ascii -> ascii) (slug : string) :
  (forall c, isHyphen (f c) = isHyphen c) ->
  (forall c, upperChar (f c) = upperChar c) ->
  (forall c, lowerChar (f c) = lowerChar c) ->
  parseTeamsFromSlug (mapString f slug) = parseTeamsFromSlug slug.
Proof.
  intros Hh Hu Hl. unfold parseTeamsFromSlug.
  change (fun p : string => String.eqb (toLowerCase p) "nfl") with isNflToken.
  rewrite (split_mapString f slug Hh), length_map.
  rewrite (findIndex_map isNflToken (mapString f)).
  - destruct (findIndex isNflToken (split "-" slug)) as [i|];
      rewrite ?upperAt_map by exact Hu; reflexivity.
  - intro p. unfold isNflToken, toLowerCase.
    now rewrite (mapString_compose lowerChar f lowerChar).
Qed.

(** X14. For a slug of ASCII characters the derived codes do not depend
    on the case of the slug: the slug in upper case and the slug in lower
    case give the codes of the slug itself. *)
Theorem slug_case_is_ignored (slug : string) :
  allAscii slug = true ->
  parseTeamsFromSlug (toUpperCase slug) = parseTeamsFromSlug slug
  /\ parseTeamsFromSlug (toLowerCase slug) = parseTeamsFromSlug slug.
Proof.
  intros _. split; apply parseTeamsFromSlug_mapString;
    auto using isHyphen_upperChar, isHyphen_lowerChar, upperChar_idem,
               upperChar_lowerChar, lowerChar_upperChar, lowerChar_idem.
Qed.

Lemma slug_case_is_ignored_witness :
  parseTeamsFromSlug (toUpperCase "Nfl-Buf-hOU-2025-11-20")
  = parseTeamsFromSlug "Nfl-Buf-hOU-2025-11-20"
  /\ parseTeamsFromSlug (toLowerCase "Nfl-Buf-hOU-2025-11-20")
     = parseTeamsFromSlug "Nfl-Buf-hOU-2025-11-20".
Proof.
  apply (slug_case_is_ignored "Nfl-Buf-hOU-2025-11-20"). reflexivity.
Defined.

Lemma upperAt_plain (parts : list string) (i : nat) (d : string) :
  Forall (fun p => anyChar isHyphen p = false) parts ->
  toUpperCase d = d -> anyChar isHyphen d = false ->
  toUpperCase (upperAt parts i d) = upperAt parts i d
  /\ anyChar isHyphen (upperAt parts i d) = false.
Proof.
  intros Hparts Hd1 Hd2. unfold upperAt.
  destruct (nth_error parts i) as [p|] eqn:E; [|now split].
  split.
  - unfold toUpperCase. apply mapString_compose, upperChar_idem.
  - unfold toUpperCase. rewrite (anyChar_mapString _ _ _ isHyphen_upperChar).
    apply nth_error_In in E. rewrite Forall_forall in Hparts. now apply Hparts.
Qed.

(** X15. Both derived codes are in upper case already (the conversion to
    upper case leaves them as they are) and neither holds a hyphen, for
    every slug. *)
Theorem derived_codes_are_upper_and_plain (slug : string) :
  toUpperCase (fst (parseTeamsFromSlug slug)) = fst (parseTeamsFromSlug slug)
  /\ toUpperCase (snd (parseTeamsFromSlug slug)) = snd (parseTeamsFromSlug slug)
  /\ anyChar isHyphen (fst (parseTeamsFromSlug slug)) = false
  /\ anyChar isHyphen (snd (parseTeamsFromSlug slug)) = false.
Proof.
  pose proof (split_parts_plain slug) as Hparts.
  assert (H1 : forall i, toUpperCase (upperAt (split "-" slug) i "TEAM1")
                         = upperAt (split "-" slug) i "TEAM1"
                         /\ anyChar isHyphen (upperAt (split "-" slug) i "TEAM1") = false)
    by (intro i; now apply upperAt_plain).
  assert (H2 : forall i, toUpperCase (upperAt (split "-" slug) i "TEAM2")
                         = upperAt (split "-" slug) i "TEAM2"
                         /\ anyChar isHyphen (upperAt (split "-" slug) i "TEAM2") = false)
    by (intro i; now apply upperAt_plain).
  unfold parseTeamsFromSlug.
  destruct (findIndex _ _) as [i|];
    repeat match goal with |- context [if ?b then _ else _] => destruct b end;
    cbn [fst snd]; repeat split;
    first [ apply H1 | apply H2 | reflexivity ].
Qed.

Lemma isNflToken_plain (p : string) :
  isNflToken p = true -> anyChar isHyphen p = false.
Proof.
  unfold isNflToken. intro H. apply String.eqb_eq in H.
  rewrite <- (anyChar_mapString isHyphen lowerChar p isHyphen_lowerChar).
  fold (toLowerCase p). now rewrite H.
Qed.

Lemma append_empty_r (s : string) : s ++ EmptyString = s.
Proof. induction s as [|c r IH]; [reflexivity|]. cbn [append]. now rewrite IH. Qed.

(** X16. A slug written as an "nfl" token (in any case), a hyphen, a
    first code, a hyphen, a second code, and then nothing or a hyphen and
    anything, gives back the two codes in upper case, provided the codes
    hold no hyphen. *)
Theorem standard_slug_gives_its_codes (pre a b tail : string) :
  isNflToken pre = true ->
  anyChar isHyphen a = false ->
  anyChar isHyphen b = false ->
  (tail = EmptyString \/ exists r, tail = String "-" r) ->
  parseTeamsFromSlug (pre ++ String "-" (a ++ String "-" (b ++ tail)))
  = (toUpperCase a, toUpperCase b).
Proof.
  intros Hpre Ha Hb Htail. unfold parseTeamsFromSlug.
  rewrite (split_app pre _ (isNflToken_plain pre Hpre)), (split_app a _ Ha).
  assert (Hrest : exists ps, split "-" (b ++ tail) = b :: ps).
  { destruct Htail as [->|(r & ->)].
    - exists []. rewrite append_empty_r. now apply split_plain.
    - exists (split "-" r). now apply split_app. }
  destruct Hrest as (ps & ->).
  cbn [findIndex]. fold (isNflToken pre). rewrite Hpre. reflexivity.
Qed.

Lemma standard_slug_gives_its_codes_witness :
  parseTeamsFromSlug ("NFL" ++ String "-" ("kc" ++ String "-" ("den" ++ "-2025-12-25")))
  = (toUpperCase "kc", toUpperCase "den").
Proof.
  apply (standard_slug_gives_its_codes "NFL" "kc" "den" "-2025-12-25").
  - reflexivity.
  - reflexivity.
  - reflexivity.
  - right. now exists "2025-12-25".
Defined.

(* ===================================================================== *)
(** ** The numeric inputs *)

Lemma onNumberChange_not_NaN (v : string) (old : field) :
  old <> Val NaN -> onNumberChange v old <> Val NaN.
Proof.
  intro Hold. unfold onNumberChange.
  destruct (String.eqb v EmptyString); [discriminate|].
  destruct (Number v) eqn:E; cbn [JS.isNaN negb]; [exact Hold| |]; discriminate.
Qed.

(** X17. A numeric field that does not hold NaN never comes to hold it,
    whatever is typed into its input and in whatever order; at submission
    the fallback is therefore used exactly when the field is blank. *)
Theorem numeric_field_never_holds_NaN
    (edits : list string) (init : field) (fallback : jsnum) :
  init <> Val NaN ->
  afterEdits edits init <> Val NaN
  /\ parseOrDefault (afterEdits edits init) fallback
     = match afterEdits edits init with
       | Blank => fallback
       | Val n => n
       end.
Proof.
  intro Hinit.
  assert (H : afterEdits edits init <> Val NaN).
  { unfold afterEdits. revert init Hinit.
    induction edits as [|v r IH]; intros init Hinit; [exact Hinit|].
    cbn [fold_left]. apply IH. now apply onNumberChange_not_NaN. }
  split; [exact H|].
  destruct (afterEdits edits init) as [|n]; [reflexivity|].
  destruct n; [congruence| |]; reflexivity.
Qed.

Lemma numeric_field_never_holds_NaN_witness :
  afterEdits ["2"; "2x"; "abc"] (Val (num 1)) <> Val NaN
  /\ parseOrDefault (afterEdits ["2"; "2x"; "abc"] (Val (num 1))) (num 1)
     = match afterEdits ["2"; "2x"; "abc"] (Val (num 1)) with
       | Blank => num 1
       | Val n => n
       end.
Proof.
  apply (numeric_field_never_holds_NaN ["2"; "2x"; "abc"] (Val (num 1)) (num 1)).
  discriminate.
Defined.

(* ===================================================================== *)
(** ** The earlier page *)

Ltac run_legacy :=
  cbv [Legacy.requests Legacy.shown Legacy.submit Legacy.handleSubmit
       tryCatchFinally bind ret throw
       setError setResult setLoading modifyStatus
       console_error fetch res_text res_json snd fst
       ui sent console loading error result yardlineError].

Lemma legacy_requests (p : Legacy.Page) (net : Network) :
  Legacy.requests p net
  = [ {| url := endpoint; payload := Legacy.payloadFor (Legacy.fields p) |} ].
Proof.
  run_legacy. fold (Legacy.payloadFor (Legacy.fields p)).
  destruct (net endpoint (Legacy.payloadFor (Legacy.fields p))) as [m|r];
    [reflexivity|].
  destruct (ok r); cbn [negb]; [|reflexivity].
  destruct (json r); reflexivity.
Qed.

Lemma orElse_truthy (a b : string) : truthy b = true -> truthy (orElse a b) = true.
Proof. intro H. unfold orElse. destruct a; [exact H|reflexivity]. Qed.

Lemma append_truthy (a b : string) : truthy a = true -> truthy (a ++ b) = true.
Proof. destruct a; [discriminate|reflexivity]. Qed.

(** The status after a submission of the earlier page, by what the
    network did. *)
Lemma legacy_shown (p : Legacy.Page) (net : Network) :
  (exists res d,
      net endpoint (Legacy.payloadFor (Legacy.fields p)) = Resolved res
      /\ ok res = true /\ json res = inr d
      /\ Legacy.shown p net
         = {| loading := false; error := None; result := Some d;
              yardlineError := yardlineError (Legacy.status p) |})
  \/ (exists m, truthy m = true
                /\ Legacy.shown p net
                   = {| loading := false; error := Some m; result := None;
                        yardlineError := yardlineError (Legacy.status p) |}).
Proof.
  run_legacy. fold (Legacy.payloadFor (Legacy.fields p)).
  destruct (net endpoint (Legacy.payloadFor (Legacy.fields p))) as [m|r] eqn:En.
  - right. exists (orElse m "Unknown error"). split; [now apply orElse_truthy|].
    reflexivity.
  - destruct (ok r) eqn:Eok; cbn [negb].
    + destruct (json r) as [m|d] eqn:Ej.
      * right. exists (orElse m "Unknown error").
        split; [now apply orElse_truthy|]. reflexivity.
      * left. exists r, d. repeat split; assumption.
    + right. eexists. split; [|reflexivity].
      apply orElse_truthy. reflexivity.
Qed.

(** X18. The earlier page checks nothing before it submits: every
    submission issues exactly one request to the endpoint, the numeric
    state goes into the payload as it is (no clamping), seconds_remaining
    is computed from the quarter as it is, and home_has_ball is sent as
    a boolean. *)
Theorem legacy_submission_sends_state_as_is (p : Legacy.Page) (net : Network) :
  exists r,
    Legacy.requests p net = [r]
    /\ url r = endpoint
    /\ prop2 "state" "quarter" (payload r) = Some (VNum (Legacy.quarter (Legacy.fields p)))
    /\ prop2 "state" "down" (payload r) = Some (VNum (Legacy.down (Legacy.fields p)))
    /\ prop2 "state" "ydstogo" (payload r) = Some (VNum (Legacy.ydstogo (Legacy.fields p)))
    /\ prop2 "state" "yardline_100" (payload r)
       = Some (VNum (Legacy.yardline100 (Legacy.fields p)))
    /\ prop "fee_cost" (payload r) = Some (VNum (Legacy.feeCost (Legacy.fields p)))
    /\ prop2 "state" "seconds_remaining" (payload r)
       = Some (VNum (computeSecondsRemaining (Legacy.quarter (Legacy.fields p))
                                             (Legacy.clock (Legacy.fields p))))
    /\ prop2 "state" "home_has_ball" (payload r)
       = Some (VBool (Legacy.homeHasBall (Legacy.fields p))).
Proof.
  eexists. split; [apply legacy_requests|]. repeat split.
Qed.

(** X19. After a submission of the earlier page the loading flag is
    cleared; a result and an error are never on display together; an
    error on display is never the empty string; and no error is on display
    only when the backend answered in the 200-299 range with a body that
    [res.json()] could read. *)
Theorem legacy_shows_result_or_error (p : Legacy.Page) (net : Network) :
  loading (Legacy.shown p net) = false
  /\ (forall d, result (Legacy.shown p net) = Some d ->
                error (Legacy.shown p net) = None)
  /\ (forall m, error (Legacy.shown p net) = Some m ->
                m <> EmptyString /\ result (Legacy.shown p net) = None)
  /\ (error (Legacy.shown p net) = None ->
      exists res d,
        net endpoint (Legacy.payloadFor (Legacy.fields p)) = Resolved res
        /\ ok res = true /\ json res = inr d).
Proof.
  destruct (legacy_shown p net) as [(res & d & En & Eok & Ej & ->)|(m & Hm & ->)];
    cbn [loading error result].
  - split; [reflexivity|]. split; [reflexivity|]. split; [discriminate|].
    intros _. now exists res, d.
  - split; [reflexivity|]. split; [discriminate|]. split; [|discriminate].
    intros m' [= <-]. split; [|reflexivity].
    intros ->. discriminate Hm.
Qed.

Lemma isZero_numOr (n d : jsnum) : isZero d = false -> isZero (numOr n d) = false.
Proof.
  intro Hd. unfold numOr.
  destruct (JS.isNaN n || isZero n) eqn:E; cbn [negb]; [exact Hd|].
  now apply Bool.orb_false_elim in E.
Qed.

(** X20. A numeric input of the earlier page stores the text as a number
    when that number is neither NaN nor 0, and the default of the input
    when it is NaN or 0: with a default that is a number the state never
    holds NaN, and with a default other than 0 it never holds 0. *)
Theorem legacy_input_falls_back (v : string) (d : jsnum) :
  (JS.isNaN (Number v) = false -> isZero (Number v) = false ->
   Legacy.onNumberChange v d = Number v)
  /\ (JS.isNaN (Number v) = true \/ isZero (Number v) = true ->
      Legacy.onNumberChange v d = d)
  /\ (d <> NaN -> Legacy.onNumberChange v d <> NaN)
  /\ (isZero d = false -> isZero (Legacy.onNumberChange v d) = false).
Proof.
  unfold Legacy.onNumberChange. repeat split.
  - intros Hn Hz. unfold numOr. now rewrite Hn, Hz.
  - intro H. unfold numOr.
    destruct (JS.isNaN (Number v)), (isZero (Number v)); cbn; try reflexivity.
    destruct H; discriminate.
  - intros Hd. unfold numOr.
    destruct (Number v); cbn [JS.isNaN orb negb]; try exact Hd; try discriminate.
    destruct (isZero _); cbn [negb]; [exact Hd|discriminate].
  - apply isZero_numOr.
Qed.

Lemma legacy_input_falls_back_witness :
  Legacy.onNumberChange "3" (num 1) = Number "3"
  /\ Legacy.onNumberChange "0" (num 1) = num 1
  /\ Legacy.onNumberChange "two" (num 1) = num 1.
Proof.
  destruct (legacy_input_falls_back "3" (num 1)) as (Hstore & _).
  destruct (legacy_input_falls_back "0" (num 1)) as (_ & Hzero & _).
  destruct (legacy_input_falls_back "two" (num 1)) as (_ & Hnan & _).
  split; [|split].
  - apply Hstore; reflexivity.
  - apply Hzero. right. reflexivity.
  - apply Hnan. left. reflexivity.
Defined.

(* ===================================================================== *)
(** ** The form component *)

Lemma trimEnd_idem (s : string) : trimEnd (trimEnd s) = trimEnd s.
Proof.
  induction s as [|c r IH]; [reflexivity|].
  cbn [trimEnd]. destruct (trimEnd r) as [|c' r'] eqn:E.
  - destruct (isSpace c) eqn:Ec; [reflexivity|].
    cbn [trimEnd]. now rewrite Ec.
  - cbn [trimEnd]. cbn [trimEnd] in IH. rewrite IH. reflexivity.
Qed.

Lemma trimStart_head (s : string) :
  trimStart s = EmptyString
  \/ exists c r, trimStart s = String c r /\ isSpace c = false.
Proof.
  induction s as [|c r IH]; [now left|].
  cbn [trimStart]. destruct (isSpace c) eqn:Ec; [exact IH|].
  right. now exists c, r.
Qed.

Lemma trimEnd_head (c : ascii) (r : string) :
  isSpace c = false -> exists r', trimEnd (String c r) = String c r'.
Proof.
  intro Hc. cbn [trimEnd]. destruct (trimEnd r) as [|c' r'].
  - rewrite Hc. now exists EmptyString.
  - now exists (String c' r').
Qed.

(** Trimming twice is trimming once. *)
Lemma trim_idem (s : string) : trim (trim s) = trim s.
Proof.
  unfold trim. destruct (trimStart_head s) as [->|(c & r & -> & Hc)];
    [reflexivity|].
  destruct (trimEnd_head c r Hc) as (r' & E).
  rewrite E. cbn [trimStart]. rewrite Hc, <- E. apply trimEnd_idem.
Qed.

Ltac run_form :=
  cbv [EVForm.submit EVForm.handleSubmit EVForm.next EVForm.andThen EVForm.attempt
       EVForm.call EVForm.setLoading EVForm.fetch EVForm.pure EVForm.raise
       EVForm.res_json EVForm.res_json_or_null snd fst
       EVForm.loading EVForm.calls EVForm.sent app].

(** The world after a submission of the form, outcome by outcome. *)
Lemma form_submit (stringify : EVForm.json -> string)
    (f : EVForm.Fields) (net : EVForm.Network) :
  EVForm.submit stringify f net =
    {| EVForm.loading := false;
       EVForm.calls :=
         [ EVForm.OnError None; EVForm.OnResult None;
           match net EVForm.endpoint (EVForm.bodyFor f) with
           | EVForm.Rejected m =>
               EVForm.OnError (Some (orElse m "Failed to compute EV"))
           | EVForm.Resolved r =>
               if EVForm.ok r
               then match EVForm.parsed r with
                    | inl m => EVForm.OnError (Some (orElse m "Failed to compute EV"))
                    | inr d => EVForm.OnResult (Some d)
                    end
               else EVForm.OnError
                      (Some (orElse (EVForm.errorText stringify
                                       match EVForm.parsed r with
                                       | inl _ => EVForm.JNull
                                       | inr v => v
                                       end r)
                                    "Failed to compute EV"))
           end ];
       EVForm.sent := [ {| url := EVForm.endpoint; payload := EVForm.bodyFor f |} ] |}.
Proof.
  run_form. fold (EVForm.bodyFor f).
  destruct (net EVForm.endpoint (EVForm.bodyFor f)) as [m|r]; [reflexivity|].
  destruct (EVForm.ok r); cbn [negb].
  - destruct (EVForm.parsed r); reflexivity.
  - destruct (EVForm.parsed r); reflexivity.
Qed.

(** X21. A submission of the form checks nothing first: it calls
    onError(null) and onResult(null), issues exactly one request to the
    endpoint, then makes exactly one more call, onResult with the data or
    onError with a non-empty message, and ends with loading cleared. *)
Theorem form_submission_protocol (stringify : EVForm.json -> string)
    (f : EVForm.Fields) (net : EVForm.Network) :
  EVForm.loading (EVForm.submit stringify f net) = false
  /\ (exists r, EVForm.sent (EVForm.submit stringify f net) = [r]
                /\ url r = EVForm.endpoint)
  /\ exists final,
       EVForm.calls (EVForm.submit stringify f net)
       = [EVForm.OnError None; EVForm.OnResult None; final]
       /\ ((exists d, final = EVForm.OnResult (Some d))
           \/ (exists m, final = EVForm.OnError (Some m) /\ m <> EmptyString)).
Proof.
  rewrite form_submit. cbn [EVForm.loading EVForm.sent EVForm.calls].
  split; [reflexivity|]. split; [eexists; split; reflexivity|].
  eexists. split; [reflexivity|].
  assert (Hne : forall m, orElse m "Failed to compute EV" <> EmptyString).
  { intros m H. pose proof (orElse_truthy m "Failed to compute EV" eq_refl) as T.
    rewrite H in T. discriminate T. }
  destruct (net EVForm.endpoint (EVForm.bodyFor f)) as [m|r].
  - right. eexists. split; [reflexivity|apply Hne].
  - destruct (EVForm.ok r).
    + destruct (EVForm.parsed r) as [m|d].
      * right. eexists. split; [reflexivity|apply Hne].
      * left. now exists d.
    + right. eexists. split; [reflexivity|apply Hne].
Qed.

(** X22. The request of the form carries the slug trimmed (trimming it
    again changes nothing), seconds_remaining as minutes x 60 + seconds
    whatever the quarter, and home_has_ball as a boolean. *)
Theorem form_request_body (stringify : EVForm.json -> string)
    (f : EVForm.Fields) (net : EVForm.Network) (r : Request) :
  In r (EVForm.sent (EVForm.submit stringify f net)) ->
  exists s,
    prop "slug" (payload r) = Some (VStr s)
    /\ s = trim (EVForm.slug f)
    /\ trim s = s
    /\ prop2 "state" "seconds_remaining" (payload r)
       = Some (VNum (EVForm.minutesRemaining f * num 60 + EVForm.secondsRemaining f)%js)
    /\ prop2 "state" "home_has_ball" (payload r)
       = Some (VBool (EVForm.homeHasBall f)).
Proof.
  rewrite form_submit. cbn [EVForm.sent]. intros [<-|[]].
  exists (trim (EVForm.slug f)). repeat split. apply trim_idem.
Qed.

Lemma form_request_body_witness :
  exists s,
    prop "slug" (EVForm.bodyFor EVForm.initialFields) = Some (VStr s)
    /\ s = trim (EVForm.slug EVForm.initialFields)
    /\ trim s = s
    /\ prop2 "state" "seconds_remaining" (EVForm.bodyFor EVForm.initialFields)
       = Some (VNum (EVForm.minutesRemaining EVForm.initialFields * num 60
                     + EVForm.secondsRemaining EVForm.initialFields)%js)
    /\ prop2 "state" "home_has_ball" (EVForm.bodyFor EVForm.initialFields)
       = Some (VBool (EVForm.homeHasBall EVForm.initialFields)).
Proof.
  apply (form_request_body EVForm.opaqueText EVForm.initialFields
           (fun _ _ => EVForm.Rejected "Failed to fetch")
           {| url := EVForm.endpoint; payload := EVForm.bodyFor EVForm.initialFields |}).
  rewrite form_submit. left. reflexivity.
Defined.

(** X23. For a response outside 200-299 whose body parses to an object
    with a non-empty string under "detail", the form reports exactly that
    string through onError. *)
Theorem form_reports_string_detail (stringify : EVForm.json -> string)
    (f : EVForm.Fields) (net : EVForm.Network) (r : EVForm.Reply)
    (props : list (string * EVForm.json)) (s : string) :
  net EVForm.endpoint (EVForm.bodyFor f) = EVForm.Resolved r ->
  EVForm.ok r = false ->
  EVForm.parsed r = inr (EVForm.JObj props) ->
  EVForm.lookup "detail" props = Some (EVForm.JStr s) ->
  s <> EmptyString ->
  EVForm.calls (EVForm.submit stringify f net)
  = [EVForm.OnError None; EVForm.OnResult None; EVForm.OnError (Some s)].
Proof.
  intros Hnet Hok Hparsed Hdetail Hs.
  rewrite form_submit, Hnet, Hok, Hparsed. cbn [EVForm.calls].
  unfold EVForm.errorText. cbn [EVForm.detailOf]. rewrite Hdetail.
  destruct s as [|c s']; [congruence|]. reflexivity.
Qed.

Lemma form_reports_string_detail_witness :
  EVForm.calls (EVForm.submit EVForm.opaqueText EVForm.initialFields
                  (fun _ _ => EVForm.Resolved EVForm.validationReply))
  = [EVForm.OnError None; EVForm.OnResult None;
     EVForm.OnError (Some "slug not found")].
Proof.
  apply (form_reports_string_detail EVForm.opaqueText EVForm.initialFields
           (fun _ _ => EVForm.Resolved EVForm.validationReply)
           EVForm.validationReply [("detail", EVForm.JStr "slug not found")]
           "slug not found"); try reflexivity.
  discriminate.
Defined.

(** X24. For a response outside 200-299 whose body does not parse, is
    not an object, or has no "detail" or a falsy one, the form reports the
    status text, or "Failed to compute EV" when the status text is empty. *)
Theorem form_reports_status_text (stringify : EVForm.json -> string)
    (f : EVForm.Fields) (net : EVForm.Network) (r : EVForm.Reply) :
  net EVForm.endpoint (EVForm.bodyFor f) = EVForm.Resolved r ->
  EVForm.ok r = false ->
  match EVForm.parsed r with
  | inl _ => True
  | inr data => match EVForm.detailOf data with
                | None => True
                | Some d => EVForm.truthyJson d = false
                end
  end ->
  EVForm.calls (EVForm.submit stringify f net)
  = [EVForm.OnError None; EVForm.OnResult None;
     EVForm.OnError (Some (if String.eqb (EVForm.statusText r) EmptyString
                           then "Failed to compute EV"
                           else EVForm.statusText r))].
Proof.
  intros Hnet Hok Hdetail.
  rewrite form_submit, Hnet, Hok. cbn [EVForm.calls].
  assert (E : EVForm.errorText stringify
                match EVForm.parsed r with inl _ => EVForm.JNull | inr v => v end r
              = EVForm.statusText r).
  { unfold EVForm.errorText. destruct (EVForm.parsed r) as [m|data]; [reflexivity|].
    destruct (EVForm.detailOf data) as [d|]; [|reflexivity].
    now rewrite Hdetail. }
  rewrite E. unfold orElse. destruct (EVForm.statusText r); reflexivity.
Qed.

Lemma form_reports_status_text_witness :
  EVForm.calls
    (EVForm.submit EVForm.opaqueText EVForm.initialFields
       (fun _ _ => EVForm.Resolved
                     {| EVForm.httpStatus := 502%N;
                        EVForm.statusText := "Bad Gateway";
                        EVForm.parsed := inl "Unexpected token" |}))
  = [EVForm.OnError None; EVForm.OnResult None; EVForm.OnError (Some "Bad Gateway")].
Proof.
  apply (form_reports_status_text EVForm.opaqueText EVForm.initialFields
           (fun _ _ => EVForm.Resolved
                         {| EVForm.httpStatus := 502%N;
                            EVForm.statusText := "Bad Gateway";
                            EVForm.parsed := inl "Unexpected token" |})
           {| EVForm.httpStatus := 502%N;
              EVForm.statusText := "Bad Gateway";
              EVForm.parsed := inl "Unexpected token" |}).
  - reflexivity.
  - reflexivity.
  - exact I.
Defined.

(* ===================================================================== *)
(** ** What the reading of a label ignores *)

Lemma toUpperCase_toLowerCase (s : string) : toUpperCase (toLowerCase s) = toUpperCase s.
Proof. apply mapString_compose, upperChar_lowerChar. Qed.

Lemma toUpperCase_idem (s : string) : toUpperCase (toUpperCase s) = toUpperCase s.
Proof. apply mapString_compose, upperChar_idem. Qed.

(** X25. White space around the label does not matter, and neither does
    the case of the two team codes when they are made of ASCII
    characters: the trimmed label, and such codes in lower or in upper
    case, give the result of the label and codes as typed. *)
Theorem label_reading_ignores_margins_and_case (label home away : string) :
  parseYardlineLabel (trim label) home away = parseYardlineLabel label home away
  /\ (allAscii home = true -> allAscii away = true ->
      parseYardlineLabel label (toLowerCase home) (toLowerCase away)
      = parseYardlineLabel label home away
      /\ parseYardlineLabel label (toUpperCase home) (toUpperCase away)
         = parseYardlineLabel label home away).
Proof.
  unfold parseYardlineLabel. split; [|intros _ _; split].
  - now rewrite trim_idem.
  - now rewrite !toUpperCase_toLowerCase.
  - now rewrite !toUpperCase_idem.
Qed.

Lemma label_reading_ignores_margins_and_case_witness :
  parseYardlineLabel " hou 36 " (toLowerCase "Hou") (toLowerCase "BUF")
  = parseYardlineLabel " hou 36 " "Hou" "BUF"
  /\ parseYardlineLabel " hou 36 " (toUpperCase "Hou") (toUpperCase "BUF")
     = parseYardlineLabel " hou 36 " "Hou" "BUF".
Proof.
  apply (proj2 (label_reading_ignores_margins_and_case " hou 36 " "Hou" "BUF"));
    reflexivity.
Defined.
